(** * mail-api: the IMAP session wrapper and the batch fetch loop

    A shallow embedding of [app/services/imap_client.py] (class
    [IMAP4_Client]) and of the batch loop of [get_emails] in
    [app/main.py], with the properties of these two components.

    The wrapper talks to Python's [imaplib.IMAP4_SSL].  That library and
    the server behind it are not part of the repository: they are an
    oracle that answers each library call given the calls made before
    it.  Every call the wrapper makes is appended to a log, so that what
    went over the connection can be stated. *)

From Stdlib Require Import String Ascii List ZArith NArith Lia Bool.
From Stdlib Require Import Strings.Byte.
Import ListNotations.

Local Open Scope string_scope.
Local Open Scope Z_scope.

(** ** Python values *)

(** [str] holds the UTF-8 encoding of a Python string; [bytes] is a
    Python bytes object. *)
Definition str := string.
Definition bytes := list byte.

(** A bytes literal. *)
Definition b (s : string) : bytes := list_byte_of_string s.

(** The double-quote character, and a string put between two of them. *)
Definition dquote : str := String "034"%char EmptyString.
Definition quoted (s : str) : str := dquote ++ s ++ dquote.

(** ** Exceptions *)

(** The exception classes that occur, with Python's class hierarchy.
    [IMAP4_error], [IMAP4_abort] and [IMAP4_readonly] are
    [imaplib.IMAP4.error], [.abort] and [.readonly]; [IMAP4_SSL.error]
    is the same class object as [IMAP4.error]. *)
Inductive exc_class :=
| Exception
| IMAP4_error | IMAP4_abort | IMAP4_readonly
| OSError | ConnectionError | TimeoutError | gaierror | SSLError
| RuntimeError | AttributeError | TypeError
| ValueError | UnicodeDecodeError
| LookupError | IndexError.

Definition parent (c : exc_class) : option exc_class :=
  match c with
  | Exception => None
  | IMAP4_error => Some Exception
  | IMAP4_abort => Some IMAP4_error
  | IMAP4_readonly => Some IMAP4_abort
  | OSError => Some Exception
  | ConnectionError | TimeoutError | gaierror | SSLError => Some OSError
  | RuntimeError | AttributeError | TypeError | ValueError | LookupError =>
      Some Exception
  | UnicodeDecodeError => Some ValueError
  | IndexError => Some LookupError
  end.

Definition exc_class_eqb (c d : exc_class) : bool :=
  match c, d with
  | Exception, Exception | IMAP4_error, IMAP4_error
  | IMAP4_abort, IMAP4_abort | IMAP4_readonly, IMAP4_readonly
  | OSError, OSError | ConnectionError, ConnectionError
  | TimeoutError, TimeoutError | gaierror, gaierror | SSLError, SSLError
  | RuntimeError, RuntimeError | AttributeError, AttributeError
  | TypeError, TypeError | ValueError, ValueError
  | UnicodeDecodeError, UnicodeDecodeError
  | LookupError, LookupError | IndexError, IndexError => true
  | _, _ => false
  end.

Fixpoint issubclass_fuel (fuel : nat) (c d : exc_class) : bool :=
  exc_class_eqb c d ||
  match fuel, parent c with
  | S k, Some p => issubclass_fuel k p d
  | _, _ => false
  end.

(** [issubclass c d]: an [except d] clause catches an exception of class
    [c].  The hierarchy is four classes deep. *)
Definition issubclass (c d : exc_class) : bool := issubclass_fuel 4 c d.

(** An exception object: its class and [str(e)]. *)
Record exception := Exc { exc_type : exc_class; exc_str : str }.

(** [except (d1, d2, ...)] *)
Definition catches (ds : list exc_class) (e : exception) : bool :=
  existsb (issubclass (exc_type e)) ds.

(** The outcome of evaluating Python code: a value or a raised
    exception. *)
Inductive result (A : Type) :=
| Ok (a : A)
| Raise (e : exception).
Arguments Ok {A} a.
Arguments Raise {A} e.

Definition rbind {A B} (r : result A) (f : A -> result B) : result B :=
  match r with
  | Ok a => f a
  | Raise e => Raise e
  end.

(** A list comprehension [[f x for x in xs]] whose body may raise: the
    elements are evaluated in order and the first exception ends it. *)
Fixpoint comprehension {A B} (f : A -> result B) (xs : list A)
  : result (list B) :=
  match xs with
  | [] => Ok []
  | x :: xs' =>
      rbind (f x) (fun y =>
      rbind (comprehension f xs') (fun ys => Ok (y :: ys)))
  end.

(** ** Built-in operations the code uses *)

Definition byte_in (lo hi : N) (x : byte) : bool :=
  ((lo <=? Byte.to_N x) && (Byte.to_N x <=? hi))%N.

(** Well-formed UTF-8 (no overlong forms, no surrogates, at most
    U+10FFFF), as [bytes.decode()] requires. *)
Fixpoint utf8_valid (bs : bytes) : bool :=
  match bs with
  | [] => true
  | b0 :: r0 =>
      if byte_in 0x00 0x7f b0 then utf8_valid r0 else
      match r0 with
      | [] => false
      | b1 :: r1 =>
          if byte_in 0xc2 0xdf b0 then byte_in 0x80 0xbf b1 && utf8_valid r1
          else
          match r1 with
          | [] => false
          | b2 :: r2 =>
              if byte_in 0xe0 0xef b0 then
                (if byte_in 0xe0 0xe0 b0 then byte_in 0xa0 0xbf b1
                 else if byte_in 0xed 0xed b0 then byte_in 0x80 0x9f b1
                 else byte_in 0x80 0xbf b1)
                && byte_in 0x80 0xbf b2 && utf8_valid r2
              else
              match r2 with
              | [] => false
              | b3 :: r3 =>
                  (if byte_in 0xf0 0xf0 b0 then byte_in 0x90 0xbf b1
                   else if byte_in 0xf1 0xf3 b0 then byte_in 0x80 0xbf b1
                   else if byte_in 0xf4 0xf4 b0 then byte_in 0x80 0x8f b1
                   else false)
                  && byte_in 0x80 0xbf b2 && byte_in 0x80 0xbf b3
                  && utf8_valid r3
              end
          end
      end
  end.

(** [x.decode()]: UTF-8, strict.  The text of the error names the
    offending byte in Python; only its class is kept exact here. *)
Definition decode (x : bytes) : result str :=
  if utf8_valid x then Ok (string_of_list_byte x)
  else Raise (Exc UnicodeDecodeError "'utf-8' codec can't decode bytes").

(** ASCII whitespace, as [bytes.split()] without arguments sees it. *)
Definition is_space (x : byte) : bool :=
  byte_in 0x09 0x0d x || byte_in 0x20 0x20 x.

(** [split_ws cur x]: the words of [x], [cur] being the (reversed) word
    under way. *)
Fixpoint split_ws (cur : bytes) (x : bytes) : list bytes :=
  match x with
  | [] => match cur with [] => [] | _ => [rev cur] end
  | c :: x' =>
      if is_space c
      then match cur with
           | [] => split_ws [] x'
           | _ => rev cur :: split_ws [] x'
           end
      else split_ws (c :: cur) x'
  end.

(** [x.split()] on bytes: runs of whitespace separate, no empty word. *)
Definition bytes_split (x : bytes) : list bytes := split_ws [] x.

(** [split_sep sep skip cur s]: [skip] characters of a separator just
    matched are still to be dropped; [cur] is the piece under way. *)
Fixpoint split_sep (sep : str) (skip : nat) (cur : str) (s : str)
  : list str :=
  match s with
  | EmptyString => [cur]
  | String c s' =>
      match skip with
      | S k => split_sep sep k cur s'
      | O =>
          if String.prefix sep s
          then cur :: split_sep sep (pred (String.length sep)) "" s'
          else split_sep sep O (cur ++ String c EmptyString) s'
      end
  end.

(** [s.split(sep)] for a non-empty [sep]: the occurrences of [sep] are
    found from the left and do not overlap. *)
Definition str_split (s sep : str) : list str := split_sep sep O "" s.

(** [sep.join(xs)] *)
Definition join (sep : str) (xs : list str) : str := String.concat sep xs.

(** [xs[i]] for [i >= 0]. *)
Definition index {A} (xs : list A) (i : nat) : result A :=
  match nth_error xs i with
  | Some x => Ok x
  | None => Raise (Exc IndexError "list index out of range")
  end.

(** [xs[::2]] *)
Fixpoint every_other {A} (xs : list A) : list A :=
  match xs with
  | [] => []
  | x :: rest =>
      x :: match rest with
           | [] => []
           | _ :: rest' => every_other rest'
           end
  end.

(** [len(xs)] *)
Definition len {A} (xs : list A) : Z := Z.of_nat (length xs).

(** A slice bound brought into [0 .. n], a negative one counted from the
    end. *)
Definition clamp (n i : Z) : Z :=
  if i <? 0 then Z.max (i + n) 0 else Z.min i n.

(** [xs[lo:hi]] *)
Definition slice {A} (xs : list A) (lo hi : Z) : list A :=
  let lo' := clamp (len xs) lo in
  let hi' := clamp (len xs) hi in
  firstn (Z.to_nat (hi' - lo')) (skipn (Z.to_nat lo') xs).

(** [range(start, stop, step)] as the list of its values. *)
Definition range (start stop step : Z) : result (list Z) :=
  if step =? 0 then Raise (Exc ValueError "range() arg 3 must not be zero")
  else
    let n :=
      if 0 <? step
      then (if start <? stop then (stop - start + step - 1) / step else 0)
      else (if stop <? start then (start - stop - step - 1) / (- step) else 0)
    in
    Ok (map (fun k => start + Z.of_nat k * step) (seq 0 (Z.to_nat n))).

(** [str(x)] of an optional string. *)
Definition str_of_opt (x : option str) : str :=
  match x with
  | Some s => s
  | None => "None"
  end.

(** ** The library: [imaplib.IMAP4_SSL] *)

(** A connection object; each call of the constructor makes a new one. *)
Definition handle := nat.

(** The methods of a connection object.  [COPY] and [UID] are how
    messages are put into another mailbox with this library; the
    wrapper calls neither. *)
Inductive command :=
| NOOP
| LOGIN (user password : str)
| LOGOUT
| SELECT (mailbox : option str)
| SEARCH (charset : option str) (criteria : str)
| FETCH (message_set message_parts : str)
| STORE (message_set command flags : str)
| EXPUNGE
| LIST (directory pattern : bytes)
| RENAME (oldmailbox newmailbox : str)
| CREATE (mailbox : str)
| DELETE (mailbox : str)
| COPY (message_set new_mailbox : str)
| UID (command : str) (args : list str).

Inductive call :=
| IMAP4_SSL (host : str) (port : Z) (ssl_context timeout : option str)
| Method (h : handle) (c : command).

(** One element of the [data] list of a reply: [None], a bytes object,
    or a pair of bytes objects (a literal with its header). *)
Inductive datum :=
| DNone
| DBytes (x : bytes)
| DPair (header literal : bytes).

(** What a library call does: raise, or return [(typ, data)].  For the
    constructor a return stands for the new connection object. *)
Inductive reply :=
| Raises (e : exception)
| Returns (typ : str) (data : list datum).

(** The library together with the server: the reply to a call, given
    the calls made so far (oldest first). *)
Definition library := list call -> call -> reply.

(** A parsed message.  The parser of Python's [email] package is outside
    the repository: a message is represented by the bytes it was parsed
    from. *)
Inductive EmailMessage :=
| message_from_bytes (message : bytes).

(** ** The session object and the monad of its methods *)

(** The fields of an [IMAP4_Client]; [imap] is [self.__imap], [None]
    until [connect] has built a connection object.  The TLS context and
    the timeout are only handed on to the constructor: they are kept as
    tokens. *)
Record IMAP4_Client := {
  host : str;
  port : Z;
  sslcontext : option str;
  timeout : option str;
  imap : option handle
}.

(** [IMAP4_Client(host, port, ssl_context, timeout)] *)
Definition init (host : str) (port : Z)
  (ssl_context timeout : option str) : IMAP4_Client :=
  {| host := host; port := port; sslcontext := ssl_context;
     timeout := timeout; imap := None |}.

Definition set_imap (self : IMAP4_Client) (h : handle) : IMAP4_Client :=
  {| host := host self; port := port self; sslcontext := sslcontext self;
     timeout := timeout self; imap := Some h |}.

(** The state a method runs in: the object, and the library calls made
    so far, oldest first. *)
Record state := { self : IMAP4_Client; log : list call }.

Definition M (A : Type) : Type := state -> result A * state.

Definition ret {A} (a : A) : M A := fun st => (Ok a, st).

Definition raise {A} (e : exception) : M A := fun st => (Raise e, st).

Definition bind {A B} (m : M A) (f : A -> M B) : M B :=
  fun st =>
    match m st with
    | (Ok a, st') => f a st'
    | (Raise e, st') => (Raise e, st')
    end.

Notation "x <- m ;; k" := (bind m (fun x => k))
  (at level 61, m at next level, right associativity).
Notation "m ;;; k" := (bind m (fun _ => k))
  (at level 61, right associativity).

(** Pure code that may raise, run inside a method. *)
Definition lift {A} (r : result A) : M A := fun st => (r, st).

(** [try: body / except ds as e: handler e] *)
Definition try_except {A} (body : M A) (ds : list exc_class)
  (handler : exception -> M A) : M A :=
  fun st =>
    match body st with
    | (Raise e, st') =>
        if catches ds e then handler e st' else (Raise e, st')
    | r => r
    end.

(** The connection objects built so far. *)
Definition is_constructor (c : call) : bool :=
  match c with
  | IMAP4_SSL _ _ _ _ => true
  | Method _ _ => false
  end.

Definition fresh_handle (l : list call) : handle :=
  length (filter is_constructor l).

(** The library calls that go to connection [h]. *)
Definition commands_on (h : handle) (l : list call) : list command :=
  flat_map (fun c => match c with
                     | Method h' c' => if Nat.eqb h h' then [c'] else []
                     | IMAP4_SSL _ _ _ _ => []
                     end) l.

(** ** Example servers *)

(** A server that accepts everything and has nothing to report. *)
Definition server_ok : library :=
  fun _ _ => Returns "OK" [].

(** A server whose connections are dead after LOGOUT: as in [imaplib],
    where [logout] closes the socket and a later command fails to send
    with [IMAP4.abort]. *)
Definition logged_out (h : handle) (l : list call) : bool :=
  existsb (fun c => match c with LOGOUT => true | _ => false end)
          (commands_on h l).

Definition server_closing : library :=
  fun l c =>
    match c with
    | Method h _ =>
        if logged_out h l
        then Raises (Exc IMAP4_abort "socket error: [Errno 9] Bad file descriptor")
        else Returns "OK" []
    | IMAP4_SSL _ _ _ _ => Returns "OK" []
    end.

(** A server that answers BAD to NOOP, which [imaplib] turns into
    [IMAP4.error]. *)
Definition server_stale : library :=
  fun _ c =>
    match c with
    | Method _ NOOP =>
        Raises (Exc IMAP4_error "NOOP command error: BAD [b'invalid']")
    | _ => Returns "OK" []
    end.

(** A host that cannot be resolved: the constructor raises
    [socket.gaierror], an [OSError]. *)
Definition server_unreachable : library :=
  fun _ c =>
    match c with
    | IMAP4_SSL _ _ _ _ =>
        Raises (Exc gaierror "[Errno -2] Name or service not known")
    | _ => Returns "OK" []
    end.

(** A server with two mailboxes, listed with the delimiter "/". *)
Definition listing_line (name : str) : bytes :=
  b ("(\HasNoChildren) " ++ quoted "/" ++ " " ++ quoted name).

Definition server_two_mailboxes : library :=
  fun _ c =>
    match c with
    | Method _ (LIST _ _) =>
        Returns "OK" [DBytes (listing_line "INBOX");
                      DBytes (listing_line "Sent")]
    | _ => Returns "OK" []
    end.


(** A server that sends, for a FETCH of the message set [uids], one
    message per identifier in it. *)
Definition fetch_data (uids : str) : list datum :=
  flat_map (fun u => [DPair (b (u ++ " (RFC822 {4}")) (b ("msg" ++ u));
                      DBytes (b ")")])
           (str_split uids ",").

Definition server_faithful : library :=
  fun _ c =>
    match c with
    | Method _ (FETCH uids _) => Returns "OK" (fetch_data uids)
    | _ => Returns "OK" []
    end.

(** A server whose connection drops at the first FETCH: [imaplib]
    raises [IMAP4.abort]. *)
Definition server_dropping : library :=
  fun _ c =>
    match c with
    | Method _ (FETCH _ _) => Raises (Exc IMAP4_abort "socket error: EOF")
    | _ => Returns "OK" []
    end.

(** A server that answers NO to SEARCH, FETCH and LIST. *)
Definition server_no : library :=
  fun _ c =>
    match c with
    | Method _ (SEARCH _ _) | Method _ (FETCH _ _) | Method _ (LIST _ _) =>
        Returns "NO" [DBytes (b "refused")]
    | _ => Returns "OK" []
    end.

(** A server that refuses every command but NOOP with the status NO,
    which the library returns without raising. *)
Definition server_all_no : library :=
  fun _ c =>
    match c with
    | Method _ NOOP | IMAP4_SSL _ _ _ _ => Returns "OK" []
    | Method _ _ => Returns "NO" [DBytes (b "refused")]
    end.

(** A server that rejects the password: [login] raises [IMAP4.error]. *)
Definition server_rejecting_login : library :=
  fun _ c =>
    match c with
    | Method _ (LOGIN _ _) =>
        Raises (Exc IMAP4_error "b'[AUTHENTICATIONFAILED] Invalid credentials'")
    | _ => Returns "OK" []
    end.

(** A server that stops answering: the NOOP of the probe times out,
    which is an [OSError] and no [IMAP4.error]. *)
Definition server_timing_out : library :=
  fun _ c =>
    match c with
    | Method _ NOOP => Raises (Exc TimeoutError "timed out")
    | _ => Returns "OK" []
    end.

(** A server whose LOGOUT fails. *)
Definition server_failing_logout : library :=
  fun l c =>
    match c with
    | Method _ LOGOUT => Raises (Exc IMAP4_abort "socket error: EOF")
    | Method _ (SEARCH _ _) => Returns "OK" [DBytes (b "1 2 3 4 5 6 7")]
    | _ => server_faithful l c
    end.

(** A server that answers SEARCH, FETCH and LIST with OK and nothing
    to show: the library then returns the data [[None]]. *)
Definition server_ok_none : library :=
  fun _ c =>
    match c with
    | Method _ (SEARCH _ _) | Method _ (FETCH _ _) | Method _ (LIST _ _) =>
        Returns "OK" [DNone]
    | _ => Returns "OK" []
    end.

(** A server whose hierarchy delimiter is a dot. *)
Definition server_dot_delimiter : library :=
  fun _ c =>
    match c with
    | Method _ (LIST _ _) =>
        Returns "OK"
          [DBytes (b ("(\HasNoChildren) " ++ quoted "." ++ " INBOX"))]
    | _ => Returns "OK" []
    end.

(** A server whose greeting the library does not accept: the
    constructor raises [IMAP4.error]. *)
Definition server_bad_greeting : library :=
  fun _ c =>
    match c with
    | IMAP4_SSL _ _ _ _ => Raises (Exc IMAP4_error "b'* BYE not available'")
    | _ => Returns "OK" []
    end.

(** ** Example sessions *)

(** A session object just built, nothing sent yet. *)
Definition session_new : state :=
  {| self := init "imap.example.org" 993 None None; log := [] |}.

(** A session after [connect("user", "secret")] went through. *)
Definition session_open : state :=
  {| self := set_imap (init "imap.example.org" 993 None None) 0%nat;
     log := [IMAP4_SSL "imap.example.org" 993 None None;
             Method 0%nat (LOGIN "user" "secret")] |}.

(** ** States reached from a state *)

(** The state after the library calls [cs] have been made. *)
Definition after (st : state) (cs : list call) : state :=
  {| self := self st; log := (log st ++ cs)%list |}.

(** The error of an operation called without a login. *)
Definition refused {A} : result A :=
  Raise (Exc ConnectionError "Not connected to IMAP server").

(** The state [session_open] is in after the probe. *)
Definition session_probed : state :=
  after session_open [Method 0%nat NOOP].

(** Seven identifiers, as a search would return them. *)
Definition seven_ids : list bytes :=
  [b "1"; b "2"; b "3"; b "4"; b "5"; b "6"; b "7"].

Section Session.

(** The library and server the session runs against. *)
Variable imaplib : library.

(** A library call: the reply is the oracle's, and the call is logged
    whether it returns or raises. *)
Definition library_call (c : call) : M (str * list datum) :=
  fun st =>
    let st' := {| self := self st; log := log st ++ [c] |} in
    match imaplib (log st) c with
    | Raises e => (Raise e, st')
    | Returns typ data => (Ok (typ, data), st')
    end.

(** [self.__imap.<method>(...)]; on [None] the attribute lookup fails. *)
Definition imap_call (name : str) (c : command) : M (str * list datum) :=
  fun st =>
    match imap (self st) with
    | Some h => library_call (Method h c) st
    | None =>
        (Raise (Exc AttributeError
                  ("'NoneType' object has no attribute '" ++ name ++ "'")),
         st)
    end.

(** [self.__imap = IMAP4_SSL(...)]: the field is assigned only when the
    constructor returns. *)
Definition open_connection : M unit :=
  fun st =>
    let s := self st in
    let h := fresh_handle (log st) in
    match library_call
            (IMAP4_SSL (host s) (port s) (sslcontext s) (timeout s)) st with
    | (Ok _, st') => (Ok tt, {| self := set_imap s h; log := log st' |})
    | (Raise e, st') => (Raise e, st')
    end.

(** ** [IMAP4_Client], method by method *)

Definition is_logged : M bool :=
  fun st =>
    match imap (self st) with
    | None => (Ok false, st)
    | Some _ =>
        try_except
          (imap_call "noop" NOOP ;;; ret true)
          [IMAP4_error]
          (fun _ => ret false) st
    end.

Definition not_connected {A} : M A :=
  raise (Exc ConnectionError "Not connected to IMAP server").

Definition connect (account password : str) : M unit :=
  logged <- is_logged ;;
  if logged then ret tt else
  try_except
    (open_connection ;;;
     imap_call "login" (LOGIN account password) ;;;
     ret tt)
    [IMAP4_error; IMAP4_error]
    (fun e => raise (Exc ConnectionError
                       ("Failed to connect to IMAP server: " ++ exc_str e))).

Definition disconnect : M unit :=
  logged <- is_logged ;;
  if negb logged then ret tt else
  try_except
    (imap_call "logout" LOGOUT ;;; ret tt)
    [Exception]
    (fun e => raise (Exc RuntimeError
                       ("Error closing connection: " ++ exc_str e))).

Definition select_mailbox (mailbox : option str) : M unit :=
  logged <- is_logged ;;
  if negb logged then not_connected else
  try_except
    (imap_call "select" (SELECT mailbox) ;;; ret tt)
    [Exception]
    (fun e => raise (Exc RuntimeError
                       ("Error selecting mailbox " ++ str_of_opt mailbox
                        ++ ": " ++ exc_str e))).

(** [data[0].split()] *)
Definition search_result (data : list datum) : result (list bytes) :=
  rbind (index data 0) (fun d =>
  match d with
  | DBytes x => Ok (bytes_split x)
  | DNone =>
      Raise (Exc AttributeError
               "'NoneType' object has no attribute 'split'")
  | DPair _ _ =>
      Raise (Exc AttributeError "'tuple' object has no attribute 'split'")
  end).

Definition search_emails (criteria : str) : M (list bytes) :=
  logged <- is_logged ;;
  if negb logged then not_connected else
  try_except
    (r <- imap_call "search" (SEARCH None criteria) ;;
     let '(status, data) := r in
     if String.eqb status "OK" then lift (search_result data)
     else ret [])
    [Exception]
    (fun e => raise (Exc RuntimeError
                       ("Error searching emails: " ++ exc_str e))).

(** [for _, message in ...]: one element unpacked into two names, and
    [message_from_bytes(message, policy=policy.default)].  A bytes
    object of length two unpacks into two integers, which the parser
    rejects. *)
Definition fetch_item (d : datum) : result EmailMessage :=
  match d with
  | DPair _ message => Ok (message_from_bytes message)
  | DNone =>
      Raise (Exc TypeError "cannot unpack non-iterable NoneType object")
  | DBytes x =>
      match x with
      | [_; _] =>
          Raise (Exc AttributeError
                   "'int' object has no attribute 'decode'")
      | _ :: _ :: _ :: _ =>
          Raise (Exc ValueError "too many values to unpack (expected 2)")
      | [_] =>
          Raise (Exc ValueError
                   "not enough values to unpack (expected 2, got 1)")
      | [] =>
          Raise (Exc ValueError
                   "not enough values to unpack (expected 2, got 0)")
      end
  end.

Definition fetch_emails (uids : str) : M (list EmailMessage) :=
  logged <- is_logged ;;
  if negb logged then not_connected else
  try_except
    (r <- imap_call "fetch" (FETCH uids "(RFC822)") ;;
     let '(status, data) := r in
     if String.eqb status "OK"
     then lift (comprehension fetch_item (every_other data))
     else ret [])
    [Exception]
    (fun e => raise (Exc RuntimeError
                       ("Error fetching email UIDs " ++ uids ++ ": "
                        ++ exc_str e))).

Definition delete_emails (messages_uid : str) : M unit :=
  logged <- is_logged ;;
  if negb logged then not_connected else
  try_except
    (imap_call "store" (STORE messages_uid "+FLAGS" "\Deleted") ;;;
     imap_call "expunge" EXPUNGE ;;;
     ret tt)
    [Exception]
    (fun e => raise (Exc RuntimeError
                       ("Error retrieving mailboxes: " ++ exc_str e))).

Definition move_emails (messages_uid mailbox : str) : M unit :=
  logged <- is_logged ;;
  if negb logged then not_connected else
  try_except
    (imap_call "store" (STORE messages_uid "+FLAGS" ("\" ++ mailbox)) ;;;
     imap_call "expunge" EXPUNGE ;;;
     ret tt)
    [Exception]
    (fun e => raise (Exc RuntimeError
                       ("Error retrieving mailboxes: " ++ exc_str e))).

(** [mailbox.decode().split(' "/" ')[1]] *)
Definition delimiter : str := " " ++ quoted "/" ++ " ".

Definition listing_name (mailbox : datum) : result str :=
  match mailbox with
  | DBytes x =>
      rbind (decode x) (fun s => index (str_split s delimiter) 1)
  | DNone =>
      Raise (Exc AttributeError
               "'NoneType' object has no attribute 'decode'")
  | DPair _ _ =>
      Raise (Exc AttributeError "'tuple' object has no attribute 'decode'")
  end.

Definition list_mailboxes (directory pattern : bytes) : M (list str) :=
  logged <- is_logged ;;
  if negb logged then not_connected else
  try_except
    (r <- imap_call "list" (LIST directory pattern) ;;
     let '(status, data) := r in
     if String.eqb status "OK"
     then lift (comprehension listing_name data)
     else ret [])
    [Exception]
    (fun e => raise (Exc RuntimeError
                       ("Error retrieving mailboxes: " ++ exc_str e))).

Definition rename_mailbox (old_mailbox new_mailbox : str) : M unit :=
  logged <- is_logged ;;
  if negb logged then not_connected else
  try_except
    (imap_call "rename" (RENAME old_mailbox new_mailbox) ;;; ret tt)
    [Exception]
    (fun e => raise (Exc RuntimeError
                       ("Error retrieving mailboxes: " ++ exc_str e))).

Definition new_mailbox (mailbox : str) : M unit :=
  logged <- is_logged ;;
  if negb logged then not_connected else
  try_except
    (imap_call "create" (CREATE mailbox) ;;; ret tt)
    [Exception]
    (fun e => raise (Exc RuntimeError
                       ("Error retrieving mailboxes: " ++ exc_str e))).

Definition delete_mailbox (mailbox : str) : M unit :=
  logged <- is_logged ;;
  if negb logged then not_connected else
  try_except
    (imap_call "delete" (DELETE mailbox) ;;; ret tt)
    [Exception]
    (fun e => raise (Exc RuntimeError
                       ("Error retrieving mailboxes: " ++ exc_str e))).

(** ** [get_emails] of [main.py] *)

(** [','.join(map(lambda x: x.decode(), batch_uids))] *)
Definition uids_str_of (batch_uids : list bytes) : result str :=
  rbind (comprehension decode batch_uids) (fun xs => Ok (join "," xs)).

(** The body of the loop, for one value of [index]; [emails] is the
    list built so far and the list after [extend] is returned. *)
Definition batch_step (emails_uids : list bytes) (batch_size : Z)
  (index : Z) (emails : list EmailMessage) : M (list EmailMessage) :=
  let batch_uids := slice emails_uids index (index + batch_size) in
  uids_str <- lift (uids_str_of batch_uids) ;;
  batch_emails <- fetch_emails uids_str ;;
  ret (emails ++ batch_emails)%list.

(** [for index in indexes: ...] *)
Fixpoint for_each {A B} (indexes : list A) (body : A -> B -> M B) (acc : B)
  : M B :=
  match indexes with
  | [] => ret acc
  | i :: rest => acc' <- body i acc ;; for_each rest body acc'
  end.

(** Lines 39 to 46: the batch loop. *)
Definition fetch_batches (emails_uids : list bytes) (batch_size : Z)
  : M (list EmailMessage) :=
  indexes <- lift (range 0 (len emails_uids) batch_size) ;;
  for_each indexes (batch_step emails_uids batch_size) [].

(** [with IMAP4_Client(...) as client: body]: [__exit__] disconnects on
    every way out, and an exception of [disconnect] takes the place of
    the body's outcome. *)
Definition with_client {A} (body : M A) : M A :=
  fun st =>
    let '(r, st') := body st in
    match disconnect st' with
    | (Ok _, st'') => (r, st'')
    | (Raise e, st'') => (Raise e, st'')
    end.

(** The handler, with the three environment variables as arguments. *)
Definition get_emails (IMAP_SERVER USERNAME PASSWORD : str)
  (mailbox : option str) (criteria : str) (batch_size : Z)
  (l : list call) : result (list EmailMessage) * list call :=
  let '(r, st) :=
    with_client
      (connect USERNAME PASSWORD ;;;
       select_mailbox mailbox ;;;
       emails_uids <- search_emails criteria ;;
       fetch_batches emails_uids batch_size)
      {| self := init IMAP_SERVER 993 None None; log := l |} in
  (r, log st).

(** The windows the loop walks through: the slices it takes, in the
    order of the loop. *)
Definition windows (emails_uids : list bytes) (batch_size : Z)
  : list (list bytes) :=
  match range 0 (len emails_uids) batch_size with
  | Ok indexes =>
      map (fun index => slice emails_uids index (index + batch_size)) indexes
  | Raise _ => []
  end.

(** The FETCH commands among the library calls, in order. *)
Definition fetches (l : list call) : list str :=
  flat_map (fun c => match c with
                     | Method _ (FETCH uids _) => [uids]
                     | _ => []
                     end) l.

(** A session counts as authenticated when the [is_logged] probe says
    so; [authenticated st st'] also names the state after the probe. *)
Definition authenticated (st st' : state) : Prop :=
  is_logged st = (Ok true, st').

Definition not_authenticated (st st' : state) : Prop :=
  is_logged st = (Ok false, st').

(** A command that would put messages into another mailbox. *)
Definition relocates (c : command) : bool :=
  match c with
  | COPY _ _ => true
  | UID _ _ => true
  | _ => false
  end.

(** ** Notions the properties are stated with *)

(** The shape every operation but [connect] and [disconnect] has. *)
Definition requires_login {A} (body : M A) : M A :=
  logged <- is_logged ;;
  if negb logged then not_connected else body.

(** The library closes a connection at LOGOUT: a NOOP on a connection
    object whose [logout] was called raises [IMAP4.error].  That is
    what [imaplib] does once [logout] has gone through: the socket is
    shut, and sending on it raises [IMAP4.abort]. *)
Definition closes_on_logout : Prop :=
  forall l h, logged_out h l = true ->
    exists e, imaplib l (Method h NOOP) = Raises e /\
              issubclass (exc_type e) IMAP4_error = true.

(** The number of windows: [len(ids)] over [batch_size], rounded up. *)
Definition window_count (ids : list bytes) (batch_size : Z) : nat :=
  Z.to_nat ((len ids + batch_size - 1) / batch_size).


(** [s.encode()]: a [str] is held as its UTF-8 encoding. *)
Definition encode (s : str) : bytes := list_byte_of_string s.

(** [get_mailboxes] of [main.py], with the three environment variables
    as arguments. *)
Definition get_mailboxes (IMAP_SERVER USERNAME PASSWORD : str)
  (directory pattern : str) (l : list call)
  : result (list str) * list call :=
  let '(r, st) :=
    with_client
      (connect USERNAME PASSWORD ;;;
       list_mailboxes (encode directory) (encode pattern))
      {| self := init IMAP_SERVER 993 None None; log := l |} in
  (r, log st).

(** What a handler does after the constructor has returned: log in,
    run the body, disconnect. *)
Definition after_constructor {A} (USERNAME PASSWORD : str) (body : M A)
  : M A :=
  with_client
    (try_except
       (imap_call "login" (LOGIN USERNAME PASSWORD) ;;; ret tt)
       [IMAP4_error; IMAP4_error]
       (fun e => raise (Exc ConnectionError
                          ("Failed to connect to IMAP server: "
                           ++ exc_str e))) ;;;
     body).

(** [admitted o allowed c]: the call [c] is a method of the connection
    object [o] of the session, with a command that [allowed] admits.
    No call is admitted on a session without a connection object. *)
Definition admitted (o : option handle) (allowed : command -> Prop)
  (c : call) : Prop :=
  match o, c with
  | Some h, Method h' cmd => h' = h /\ allowed cmd
  | _, _ => False
  end.

(** [confined allowed m]: the method [m] leaves the session object as
    it is, takes nothing off the log, and every call it adds goes to
    the session's own connection with a command that [allowed]
    admits. *)
Definition confined {A} (allowed : command -> Prop) (m : M A) : Prop :=
  forall st r st', m st = (r, st') ->
    self st' = self st /\
    exists sent, log st' = (log st ++ sent)%list /\
                 Forall (admitted (imap (self st)) allowed) sent.

(** The commands of a handler that reads mail: none of them changes a
    mailbox. *)
Definition reading_command (c : command) : Prop :=
  match c with
  | LOGIN _ _ | NOOP | LOGOUT | SELECT _ | SEARCH _ _ | FETCH _ _ => True
  | _ => False
  end.

(** The commands of a handler that lists mailboxes. *)
Definition listing_command (c : command) : Prop :=
  match c with
  | LOGIN _ _ | NOOP | LOGOUT | LIST _ _ => True
  | _ => False
  end.

(** [contains sep s]: [sep] occurs in [s]. *)
Fixpoint contains (sep s : str) : bool :=
  String.prefix sep s ||
  match s with
  | EmptyString => false
  | String _ s' => contains sep s'
  end.

(** [has_char c s]: the character [c] occurs in [s]. *)
Fixpoint has_char (c : ascii) (s : str) : bool :=
  match s with
  | EmptyString => false
  | String x s' => Ascii.eqb x c || has_char c s'
  end.

(** [no_space w]: no byte of [w] is whitespace. *)
Definition no_space (w : bytes) : bool :=
  forallb (fun c => negb (is_space c)) w.

(** [is_pair d]: the element is a pair of bytes objects. *)
Definition is_pair (d : datum) : bool :=
  match d with
  | DPair _ _ => true
  | _ => false
  end.

(** The element of a FETCH reply that carries a message, and the
    listing line of a mailbox: flags, delimiter token, name. *)
Definition pair_of (m : bytes * bytes) : datum := DPair (fst m) (snd m).

Definition line_of (entry : str * str) : bytes :=
  encode (fst entry ++ delimiter ++ snd entry).

(** * Properties *)

(** ** The probe and the login requirement *)

Lemma issubclass_Exception (c : exc_class) : issubclass c Exception = true.
Proof. destruct c; reflexivity. Qed.

Lemma catches_Exception (e : exception) : catches [Exception] e = true.
Proof.
  unfold catches; simpl. now rewrite issubclass_Exception.
Qed.

Lemma after_nil (st : state) : after st [] = st.
Proof.
  destruct st as [s l]; unfold after; simpl. now rewrite app_nil_r.
Qed.

Lemma after_after (st : state) (cs ds : list call) :
  after (after st cs) ds = after st (cs ++ ds).
Proof.
  unfold after; simpl. now rewrite app_assoc.
Qed.

Lemma imap_call_some (name : str) (c : command) (st : state) (h : handle) :
  imap (self st) = Some h ->
  imap_call name c st =
    match imaplib (log st) (Method h c) with
    | Raises e => (Raise e, after st [Method h c])
    | Returns typ data => (Ok (typ, data), after st [Method h c])
    end.
Proof.
  intros Hh. unfold imap_call, library_call, after. rewrite Hh.
  destruct (imaplib (log st) (Method h c)); reflexivity.
Qed.

(** What [is_logged] does, case by case. *)
Lemma is_logged_cases (st : state) :
  match imap (self st) with
  | None => is_logged st = (Ok false, st)
  | Some h =>
      match imaplib (log st) (Method h NOOP) with
      | Returns _ _ => is_logged st = (Ok true, after st [Method h NOOP])
      | Raises e =>
          if issubclass (exc_type e) IMAP4_error
          then is_logged st = (Ok false, after st [Method h NOOP])
          else is_logged st = (Raise e, after st [Method h NOOP])
      end
  end.
Proof.
  unfold is_logged. destruct (imap (self st)) as [h|] eqn:Hh; [|reflexivity].
  unfold try_except, bind. rewrite (imap_call_some _ _ _ _ Hh).
  destruct (imaplib (log st) (Method h NOOP)) as [e|typ data]; [|reflexivity].
  unfold catches; simpl. rewrite orb_false_r.
  destruct (issubclass (exc_type e) IMAP4_error); reflexivity.
Qed.

Lemma authenticated_inv (st st' : state) :
  authenticated st st' ->
  exists h, imap (self st) = Some h /\ st' = after st [Method h NOOP].
Proof.
  unfold authenticated. intros H. pose proof (is_logged_cases st) as C.
  destruct (imap (self st)) as [h|]; [|congruence].
  exists h; split; [reflexivity|].
  destruct (imaplib (log st) (Method h NOOP)) as [e|typ data].
  - destruct (issubclass (exc_type e) IMAP4_error); congruence.
  - congruence.
Qed.

Lemma not_authenticated_inv (st st' : state) :
  not_authenticated st st' ->
  (imap (self st) = None /\ st' = st) \/
  (exists h, imap (self st) = Some h /\ st' = after st [Method h NOOP]).
Proof.
  unfold not_authenticated. intros H. pose proof (is_logged_cases st) as C.
  destruct (imap (self st)) as [h|].
  - right. exists h; split; [reflexivity|].
    destruct (imaplib (log st) (Method h NOOP)) as [e|typ data].
    + destruct (issubclass (exc_type e) IMAP4_error); congruence.
    + congruence.
  - left. split; [reflexivity|congruence].
Qed.

Lemma requires_login_refused {A} (body : M A) (st st' : state) :
  not_authenticated st st' ->
  requires_login body st =
    (Raise (Exc ConnectionError "Not connected to IMAP server"), st').
Proof.
  unfold not_authenticated, requires_login, bind. intros ->. reflexivity.
Qed.

Lemma requires_login_passed {A} (body : M A) (st st' : state) :
  authenticated st st' -> requires_login body st = body st'.
Proof.
  unfold authenticated, requires_login, bind. intros ->. reflexivity.
Qed.

(** Step over the login check of an operation with [H : authenticated st st']. *)
Ltac pass_login H :=
  etransitivity; [apply (requires_login_passed _ _ _ H)|]; cbv beta.

(** C2, as amended: on a session that [is_logged] reports as not
    authenticated, each of the nine operations fails with
    [ConnectionError] and makes no library call of its own.  The state
    it leaves is the one the probe left: nothing was sent when the
    session holds no connection object, and the NOOP of the probe, and
    only that, when it holds one. *)
Theorem operations_require_login (st st' : state) :
  not_authenticated st st' ->
  ((forall mailbox, select_mailbox mailbox st = (refused, st')) /\
   (forall criteria, search_emails criteria st = (refused, st')) /\
   (forall uids, fetch_emails uids st = (refused, st')) /\
   (forall uids, delete_emails uids st = (refused, st')) /\
   (forall uids mailbox, move_emails uids mailbox st = (refused, st')) /\
   (forall directory pattern,
      list_mailboxes directory pattern st = (refused, st')) /\
   (forall mailbox, new_mailbox mailbox st = (refused, st')) /\
   (forall old new, rename_mailbox old new st = (refused, st')) /\
   (forall mailbox, delete_mailbox mailbox st = (refused, st'))) /\
  self st' = self st /\
  (imap (self st) = None -> log st' = log st) /\
  (forall h, imap (self st) = Some h ->
             log st' = (log st ++ [Method h NOOP])%list).
Proof.
  intros H. split.
  - repeat split; intros;
      match goal with
      | |- ?op = _ =>
          let f := eval cbv beta delta
            [select_mailbox search_emails fetch_emails delete_emails
             move_emails list_mailboxes new_mailbox rename_mailbox
             delete_mailbox] in op in
          change op with f
      end;
      apply (requires_login_refused _ _ _ H).
  - destruct (not_authenticated_inv _ _ H) as [[Hn ->]|[h [Hh ->]]].
    + split; [reflexivity|]. split; [reflexivity|].
      intros h Hh; congruence.
    + split; [reflexivity|]. split; [congruence|].
      intros h' Hh'. assert (h' = h) by congruence. subst. reflexivity.
Qed.

(** One library call behind the login check whose reply is parsed when
    its status is OK. *)
Lemma parsed_call_cases {A} (name : str) (c : command)
  (parse : list datum -> result (list A)) (wrap : exception -> exception)
  (st st' : state) (h : handle) :
  authenticated st st' ->
  imap (self st) = Some h ->
  requires_login
    (try_except
       (r <- imap_call name c ;;
        let '(status, data) := r in
        if String.eqb status "OK" then lift (parse data) else ret [])
       [Exception] (fun e => raise (wrap e))) st
  = (match imaplib (log st') (Method h c) with
     | Raises e => Raise (wrap e)
     | Returns typ data =>
         if String.eqb typ "OK"
         then match parse data with
              | Ok xs => Ok xs
              | Raise e => Raise (wrap e)
              end
         else Ok []
     end,
     after st' [Method h c]).
Proof.
  intros H Hh.
  assert (Hh' : imap (self st') = Some h).
  { destruct (authenticated_inv _ _ H) as [h' [E ->]]. exact Hh. }
  rewrite (requires_login_passed _ _ _ H). unfold try_except, bind.
  rewrite (imap_call_some _ _ _ _ Hh').
  destruct (imaplib (log st') (Method h c)) as [e|typ data].
  - now rewrite catches_Exception.
  - cbv beta iota. destruct (String.eqb typ "OK"); [|reflexivity].
    unfold lift. destruct (parse data) as [xs|e]; [reflexivity|].
    now rewrite catches_Exception.
Qed.

(** C3, as amended: on an authenticated session the outcome of
    [search_emails], [fetch_emails] and [list_mailboxes] is decided by
    the reply of the one library call.  A reply whose status is not OK
    gives the empty list and no error.  An exception raised by the
    library call is surfaced as a [RuntimeError] that carries its
    text.  A reply with status OK is parsed, and an exception raised
    by the parsing is surfaced as a [RuntimeError] in the same way: a
    thrown exception of the library is not the only thing that is
    surfaced. *)
Theorem reply_decides_outcome (st st' : state) (h : handle) :
  authenticated st st' ->
  imap (self st) = Some h ->
  (forall criteria,
     let c := Method h (SEARCH None criteria) in
     let wrap e :=
       Exc RuntimeError ("Error searching emails: " ++ exc_str e) in
     search_emails criteria st
     = (match imaplib (log st') c with
        | Raises e => Raise (wrap e)
        | Returns typ data =>
            if String.eqb typ "OK"
            then match search_result data with
                 | Ok ids => Ok ids
                 | Raise e => Raise (wrap e)
                 end
            else Ok []
        end,
        after st' [c])) /\
  (forall uids,
     let c := Method h (FETCH uids "(RFC822)") in
     let wrap e :=
       Exc RuntimeError
         ("Error fetching email UIDs " ++ uids ++ ": " ++ exc_str e) in
     fetch_emails uids st
     = (match imaplib (log st') c with
        | Raises e => Raise (wrap e)
        | Returns typ data =>
            if String.eqb typ "OK"
            then match comprehension fetch_item (every_other data) with
                 | Ok emails => Ok emails
                 | Raise e => Raise (wrap e)
                 end
            else Ok []
        end,
        after st' [c])) /\
  (forall directory pattern,
     let c := Method h (LIST directory pattern) in
     let wrap e :=
       Exc RuntimeError ("Error retrieving mailboxes: " ++ exc_str e) in
     list_mailboxes directory pattern st
     = (match imaplib (log st') c with
        | Raises e => Raise (wrap e)
        | Returns typ data =>
            if String.eqb typ "OK"
            then match comprehension listing_name data with
                 | Ok names => Ok names
                 | Raise e => Raise (wrap e)
                 end
            else Ok []
        end,
        after st' [c])).
Proof.
  intros H Hh. split; [|split].
  - intros criteria c wrap.
    exact (parsed_call_cases "search" (SEARCH None criteria) search_result
             wrap st st' h H Hh).
  - intros uids c wrap.
    exact (parsed_call_cases "fetch" (FETCH uids "(RFC822)")
             (fun data => comprehension fetch_item (every_other data))
             wrap st st' h H Hh).
  - intros directory pattern c wrap.
    exact (parsed_call_cases "list" (LIST directory pattern)
             (comprehension listing_name) wrap st st' h H Hh).
Qed.

(** ** The session life cycle *)

(** C7: on a session that is already authenticated, [connect] returns
    at once.  It leaves the object as it is, connection object
    included, builds no new connection and sends no LOGIN: the NOOP of
    the probe is the only library call. *)
Theorem connect_idempotent (account password : str) (st st' : state) :
  authenticated st st' ->
  connect account password st = (Ok tt, st') /\
  self st' = self st /\
  fresh_handle (log st') = fresh_handle (log st) /\
  exists h, imap (self st) = Some h /\
            log st' = (log st ++ [Method h NOOP])%list.
Proof.
  intros H. split.
  - unfold connect, bind. unfold authenticated in H. now rewrite H.
  - destruct (authenticated_inv _ _ H) as [h [Hh ->]].
    split; [reflexivity|]. split.
    + unfold fresh_handle, after; simpl.
      rewrite filter_app; simpl. now rewrite app_nil_r.
    + exists h. split; [exact Hh|reflexivity].
Qed.

Lemma logged_out_after (h : handle) (l cs : list call) :
  logged_out h (l ++ cs ++ [Method h LOGOUT]) = true.
Proof.
  unfold logged_out, commands_on.
  rewrite !flat_map_app, !existsb_app. simpl.
  rewrite Nat.eqb_refl. simpl. now rewrite !orb_true_r.
Qed.

(** What [disconnect] does on an authenticated session. *)
Lemma disconnect_cases (st st' : state) (h : handle) :
  authenticated st st' ->
  imap (self st) = Some h ->
  match imaplib (log st') (Method h LOGOUT) with
  | Returns _ _ => disconnect st = (Ok tt, after st' [Method h LOGOUT])
  | Raises e =>
      disconnect st =
        (Raise (Exc RuntimeError ("Error closing connection: " ++ exc_str e)),
         after st' [Method h LOGOUT])
  end.
Proof.
  intros H Hh.
  assert (Hh' : imap (self st') = Some h).
  { destruct (authenticated_inv _ _ H) as [h' [E ->]]. exact Hh. }
  assert (E : disconnect st =
            try_except (imap_call "logout" LOGOUT ;;; ret tt) [Exception]
              (fun e => raise (Exc RuntimeError
                                 ("Error closing connection: " ++ exc_str e)))
              st').
  { unfold disconnect, bind at 1. unfold authenticated in H. now rewrite H. }
  rewrite E. unfold try_except, bind. rewrite (imap_call_some _ _ _ _ Hh').
  destruct (imaplib (log st') (Method h LOGOUT)) as [e|typ data].
  - now rewrite catches_Exception.
  - reflexivity.
Qed.

Lemma disconnect_not_authenticated (st st' : state) :
  not_authenticated st st' -> disconnect st = (Ok tt, st').
Proof.
  unfold not_authenticated, disconnect, bind. intros ->. reflexivity.
Qed.

(** C8: on a session that is not authenticated [disconnect] does
    nothing and raises nothing.  So a second [disconnect] in a row
    raises nothing: after a first one on an authenticated session the
    library has closed the connection, and on a session never connected
    there is still no connection object. *)
Theorem disconnect_idempotent :
  (forall st st',
     not_authenticated st st' ->
     disconnect st = (Ok tt, st') /\ self st' = self st) /\
  (closes_on_logout ->
   forall st,
     (imap (self st) = None \/ exists st', authenticated st st') ->
     fst (disconnect (snd (disconnect st))) = Ok tt).
Proof.
  split.
  - intros st st' H. split; [now apply disconnect_not_authenticated|].
    destruct (not_authenticated_inv _ _ H) as [[_ ->]|[h [_ ->]]]; reflexivity.
  - intros Hclose st [Hn|[st' H]].
    + assert (N : not_authenticated st st).
      { unfold not_authenticated, is_logged. now rewrite Hn. }
      rewrite (disconnect_not_authenticated _ _ N); simpl.
      now rewrite (disconnect_not_authenticated _ _ N).
    + destruct (authenticated_inv _ _ H) as [h [Hh E]].
      pose proof (disconnect_cases _ _ _ H Hh) as D.
      assert (S1 : snd (disconnect st) = after st [Method h NOOP; Method h LOGOUT]).
      { subst st'. rewrite after_after in D. simpl in D.
        destruct (imaplib _ (Method h LOGOUT)); now rewrite D. }
      rewrite S1.
      set (st1 := after st [Method h NOOP; Method h LOGOUT]).
      assert (N : not_authenticated st1 (after st1 [Method h NOOP])).
      { unfold not_authenticated. pose proof (is_logged_cases st1) as C.
        assert (I : imap (self st1) = Some h) by exact Hh.
        rewrite I in C.
        destruct (Hclose (log st1) h) as [e [R Sub]].
        { unfold st1, after; simpl.
          apply (logged_out_after h (log st) [Method h NOOP]). }
        rewrite R, Sub in C. exact C. }
      now rewrite (disconnect_not_authenticated _ _ N).
Qed.

(** C9, as amended: on an authenticated session [disconnect] sends
    LOGOUT right after the probe and returns when the library call
    returns; the object keeps its reference to the connection object,
    [self.__imap] being left as it was.  So a later [is_logged] still
    probes that connection, and the NOOP alone decides its answer:
    true when the NOOP returns, false when it raises [IMAP4.error],
    which it does once the library has closed the connection at
    LOGOUT. *)
Theorem disconnect_sends_logout (st st' : state) (h : handle) :
  authenticated st st' ->
  imap (self st) = Some h ->
  let st2 := snd (disconnect st) in
  (forall typ data,
     imaplib (log st') (Method h LOGOUT) = Returns typ data ->
     fst (disconnect st) = Ok tt) /\
  log st2 = (log st ++ [Method h NOOP; Method h LOGOUT])%list /\
  imap (self st2) = Some h /\
  is_logged st2
  = (match imaplib (log st2) (Method h NOOP) with
     | Returns _ _ => Ok true
     | Raises e =>
         if issubclass (exc_type e) IMAP4_error then Ok false else Raise e
     end,
     after st2 [Method h NOOP]) /\
  (closes_on_logout ->
   is_logged st2 = (Ok false, after st2 [Method h NOOP])).
Proof.
  intros H Hh st2. pose proof (disconnect_cases _ _ _ H Hh) as D.
  destruct (authenticated_inv _ _ H) as [h' [Hh' E]].
  assert (h' = h) by congruence. subst h' st'.
  rewrite after_after in D. simpl in D.
  assert (S2 : st2 = after st [Method h NOOP; Method h LOGOUT]).
  { subst st2. destruct (imaplib _ (Method h LOGOUT)); now rewrite D. }
  assert (I2 : imap (self st2) = Some h) by (rewrite S2; exact Hh).
  assert (L : is_logged st2
              = (match imaplib (log st2) (Method h NOOP) with
                 | Returns _ _ => Ok true
                 | Raises e =>
                     if issubclass (exc_type e) IMAP4_error
                     then Ok false else Raise e
                 end,
                 after st2 [Method h NOOP])).
  { pose proof (is_logged_cases st2) as C. rewrite I2 in C.
    destruct (imaplib (log st2) (Method h NOOP)) as [e|typ data];
      [|exact C].
    destruct (issubclass (exc_type e) IMAP4_error); exact C. }
  split.
  { intros typ data R. simpl in R. rewrite R in D. now rewrite D. }
  split; [now rewrite S2|]. split; [exact I2|]. split; [exact L|].
  intros Hclose. rewrite L.
  destruct (Hclose (log st2) h) as [e [R Sub]].
  { rewrite S2. unfold after; simpl.
    apply (logged_out_after h (log st) [Method h NOOP]). }
  now rewrite R, Sub.
Qed.

(** ** Deleting and moving *)

(** The library calls of a two-step flag-and-expunge operation. *)
Lemma store_expunge_cases (flags : str) (wrap : exception -> exception)
  (uids : str) (st : state) (h : handle) :
  imap (self st) = Some h ->
  let store := Method h (STORE uids "+FLAGS" flags) in
  let expunge := Method h EXPUNGE in
  try_except
    (imap_call "store" (STORE uids "+FLAGS" flags) ;;;
     imap_call "expunge" EXPUNGE ;;; ret tt)
    [Exception] (fun e => raise (wrap e)) st
  = match imaplib (log st) store with
    | Raises e => (Raise (wrap e), after st [store])
    | Returns _ _ =>
        match imaplib (log st ++ [store])%list expunge with
        | Raises e => (Raise (wrap e), after st [store; expunge])
        | Returns _ _ => (Ok tt, after st [store; expunge])
        end
    end.
Proof.
  intros Hh store expunge. unfold try_except, bind.
  rewrite (imap_call_some _ _ _ _ Hh). fold store.
  destruct (imaplib (log st) store) as [e|typ data].
  - now rewrite catches_Exception.
  - rewrite (imap_call_some _ _ (after st [store]) h Hh).
    simpl log. fold expunge. rewrite after_after. simpl app.
    destruct (imaplib (log st ++ [store])%list expunge) as [e|typ' data'].
    + now rewrite catches_Exception.
    + reflexivity.
Qed.

(** C10: [move_emails(u, "Deleted")] and [delete_emails(u)] are the
    same operation, from every state.  Both make the same check: on a
    session that is not authenticated both are refused with the same
    [ConnectionError].  On an authenticated session both send exactly
    STORE u +FLAGS \Deleted and, when that call has returned, EXPUNGE,
    and both turn an exception of either call into the same
    [RuntimeError]. *)
Theorem move_to_Deleted_is_delete (uids : str) (st : state) :
  move_emails uids "Deleted" st = delete_emails uids st /\
  (forall st',
     not_authenticated st st' ->
     delete_emails uids st = (refused, st') /\
     move_emails uids "Deleted" st = (refused, st')) /\
  (forall st' h,
     authenticated st st' ->
     imap (self st) = Some h ->
     let store := Method h (STORE uids "+FLAGS" "\Deleted") in
     let expunge := Method h EXPUNGE in
     let wrap e :=
       Exc RuntimeError ("Error retrieving mailboxes: " ++ exc_str e) in
     let outcome :=
       match imaplib (log st') store with
       | Raises e => (Raise (wrap e), after st' [store])
       | Returns _ _ =>
           match imaplib (log st' ++ [store])%list expunge with
           | Raises e => (Raise (wrap e), after st' [store; expunge])
           | Returns _ _ => (Ok tt, after st' [store; expunge])
           end
       end in
     delete_emails uids st = outcome /\
     move_emails uids "Deleted" st = outcome).
Proof.
  split; [reflexivity|]. split.
  - intros st' N. split; apply (requires_login_refused _ _ _ N).
  - intros st' h H Hh store expunge wrap outcome.
    assert (Hh' : imap (self st') = Some h).
    { destruct (authenticated_inv _ _ H) as [h' [E ->]]. exact Hh. }
    split; pass_login H;
      apply (store_expunge_cases "\Deleted" wrap uids st' h Hh').
Qed.

(** C6: on an authenticated session [move_emails] stores the target
    name, a backslash put before it, as a flag on the messages and, when
    that call returns, expunges; a failure of either call is a
    [RuntimeError].  None of its library calls copies or moves a
    message to another mailbox. *)
Theorem move_emails_sets_flag (uids target : str) (st st' : state)
  (h : handle) :
  authenticated st st' ->
  imap (self st) = Some h ->
  let store := Method h (STORE uids "+FLAGS" ("\" ++ target)) in
  let expunge := Method h EXPUNGE in
  let wrap e :=
    Exc RuntimeError ("Error retrieving mailboxes: " ++ exc_str e) in
  move_emails uids target st =
    match imaplib (log st') store with
    | Raises e => (Raise (wrap e), after st' [store])
    | Returns _ _ =>
        match imaplib (log st' ++ [store])%list expunge with
        | Raises e => (Raise (wrap e), after st' [store; expunge])
        | Returns _ _ => (Ok tt, after st' [store; expunge])
        end
    end /\
  exists sent,
    log (snd (move_emails uids target st)) = (log st ++ sent)%list /\
    Forall (fun c => match c with
                     | Method _ cmd => relocates cmd = false
                     | IMAP4_SSL _ _ _ _ => False
                     end) sent.
Proof.
  intros H Hh store expunge wrap.
  assert (Hh' : imap (self st') = Some h).
  { destruct (authenticated_inv _ _ H) as [h' [E ->]]. exact Hh. }
  assert (E : move_emails uids target st =
    match imaplib (log st') store with
    | Raises e => (Raise (wrap e), after st' [store])
    | Returns _ _ =>
        match imaplib (log st' ++ [store])%list expunge with
        | Raises e => (Raise (wrap e), after st' [store; expunge])
        | Returns _ _ => (Ok tt, after st' [store; expunge])
        end
    end).
  { pass_login H. apply (store_expunge_cases _ wrap uids st' h Hh'). }
  split; [exact E|]. rewrite E.
  destruct (authenticated_inv _ _ H) as [h' [Hh2 ->]].
  assert (h' = h) by congruence. subst h'.
  destruct (imaplib _ store) as [e|typ data];
    [|destruct (imaplib _ expunge) as [e|typ' data']];
    simpl; rewrite <- app_assoc; eexists; (split; [reflexivity|]);
    repeat constructor.
Qed.

(** ** Listing mailboxes *)

(** C5, as amended: against a server that lists the two mailboxes
    INBOX and Sent with the delimiter "/", [list_mailboxes] returns the
    two name fields as they stand in the reply, each still between its
    double quotes. *)
Theorem list_mailboxes_keeps_quotes (directory pattern : bytes)
  (st st' : state) (h : handle) :
  authenticated st st' ->
  imap (self st) = Some h ->
  imaplib (log st') (Method h (LIST directory pattern))
    = Returns "OK" [DBytes (listing_line "INBOX");
                    DBytes (listing_line "Sent")] ->
  list_mailboxes directory pattern st
    = (Ok [quoted "INBOX"; quoted "Sent"],
       after st' [Method h (LIST directory pattern)]).
Proof.
  intros H Hh R.
  assert (Hh' : imap (self st') = Some h).
  { destruct (authenticated_inv _ _ H) as [h' [E ->]]. exact Hh. }
  pass_login H. unfold try_except, bind.
  rewrite (imap_call_some _ _ _ _ Hh'), R. reflexivity.
Qed.

(** ** The windows of the batch loop *)

Section Windows.

Context {A : Type}.



(** A slice between two bounds that are not negative. *)
Lemma slice_window (l : list A) (w : Z) (k : nat) :
  1 <= w ->
  slice l (Z.of_nat k * w) (Z.of_nat k * w + w)
  = firstn (Z.to_nat w) (skipn (k * Z.to_nat w) l).
Proof.
  intros Hw. unfold slice, clamp, len.
  set (n := length l).
  assert (Hk : Z.to_nat (Z.of_nat k * w) = (k * Z.to_nat w)%nat) by nia.
  destruct (Z.ltb_spec (Z.of_nat k * w) 0) as [|_]; [nia|].
  destruct (Z.ltb_spec (Z.of_nat k * w + w) 0) as [|_]; [nia|].
  destruct (Z_lt_le_dec (Z.of_nat k * w) (Z.of_nat n)) as [Hlo|Hlo].
  - rewrite (Z.min_l (Z.of_nat k * w)) by lia. rewrite Hk.
    destruct (Z_le_gt_dec (Z.of_nat k * w + w) (Z.of_nat n)) as [Hhi|Hhi].
    + rewrite Z.min_l by lia. f_equal. lia.
    + rewrite Z.min_r by lia.
      transitivity (skipn (k * Z.to_nat w) l);
        [|symmetry]; apply firstn_all2; rewrite length_skipn; fold n; nia.
  - rewrite !Z.min_r by nia. rewrite Z.sub_diag. simpl.
    rewrite skipn_all2 by (fold n; nia). now rewrite firstn_nil.
Qed.

End Windows.

Lemma range_windows (ids : list bytes) (batch_size : Z) :
  1 <= batch_size ->
  range 0 (len ids) batch_size
  = Ok (map (fun k => Z.of_nat k * batch_size)
            (seq 0 (window_count ids batch_size))).
Proof.
  intros Hb. unfold range, window_count, len.
  destruct (Z.eqb_spec batch_size 0) as [|_]; [lia|].
  destruct (Z.ltb_spec 0 batch_size) as [_|]; [|lia].
  destruct (Z.ltb_spec 0 (Z.of_nat (length ids))) as [Hn|Hn].
  - rewrite Z.sub_0_r. reflexivity.
  - replace (Z.of_nat (length ids)) with 0 by lia.
    rewrite Z.div_small by lia. reflexivity.
Qed.

Lemma windows_eq (ids : list bytes) (batch_size : Z) :
  1 <= batch_size ->
  windows ids batch_size
  = map (fun k => firstn (Z.to_nat batch_size)
                         (skipn (k * Z.to_nat batch_size) ids))
        (seq 0 (window_count ids batch_size)).
Proof.
  intros Hb. unfold windows. rewrite (range_windows _ _ Hb), map_map.
  apply map_ext. intros k. now apply slice_window.
Qed.



(** ** The run of the batch loop *)








(** ** Connecting, and the handler as a whole *)

(** X18: how [connect] treats an exception of the constructor: an
    [IMAP4.error] becomes a [ConnectionError] that carries its text,
    anything else leaves [connect] as it is. *)
Lemma connect_constructor_raises (account password : str) (st st' : state)
  (e : exception) :
  not_authenticated st st' ->
  let c := IMAP4_SSL (host (self st')) (port (self st'))
             (sslcontext (self st')) (timeout (self st')) in
  imaplib (log st') c = Raises e ->
  connect account password st =
    (if issubclass (exc_type e) IMAP4_error
     then Raise (Exc ConnectionError
                   ("Failed to connect to IMAP server: " ++ exc_str e))
     else Raise e,
     after st' [c]).
Proof.
  intros H c R. unfold connect, bind at 1.
  unfold not_authenticated in H. rewrite H. simpl.
  unfold try_except, bind, open_connection, library_call. fold c. rewrite R.
  unfold catches; simpl. rewrite orb_false_r, orb_diag.
  destruct (issubclass (exc_type e) IMAP4_error); reflexivity.
Qed.

(** The batch loop inside [get_emails]: once [connect], [select_mailbox]
    and [search_emails] have returned, the handler's outcome is the
    loop's on the identifiers found, unless the closing [disconnect]
    raises. *)
Lemma get_emails_runs_loop (IMAP_SERVER USERNAME PASSWORD : str)
  (mailbox : option str) (criteria : str) (batch_size : Z) (l : list call)
  (ids : list bytes) (st1 st2 st3 st4 : state)
  (r : result (list EmailMessage)) :
  connect USERNAME PASSWORD
    {| self := init IMAP_SERVER 993 None None; log := l |} = (Ok tt, st1) ->
  select_mailbox mailbox st1 = (Ok tt, st2) ->
  search_emails criteria st2 = (Ok ids, st3) ->
  fetch_batches ids batch_size st3 = (r, st4) ->
  get_emails IMAP_SERVER USERNAME PASSWORD mailbox criteria batch_size l
  = match disconnect st4 with
    | (Ok _, st5) => (r, log st5)
    | (Raise e, st5) => (Raise e, log st5)
    end.
Proof.
  intros C S F B. unfold get_emails, with_client, bind.
  rewrite C, S, F, B. destruct (disconnect st4) as [[u|e] st5]; reflexivity.
Qed.

(** * Further properties of the session wrapper and the handlers *)

(** ** What each method sends *)

Lemma confined_ret {A} (allowed : command -> Prop) (a : A) :
  confined allowed (ret a).
Proof.
  intros st r st' E. inversion E; subst. split; [reflexivity|].
  exists []. split; [now rewrite app_nil_r|constructor].
Qed.

Lemma confined_raise {A} (allowed : command -> Prop) (e : exception) :
  confined allowed (@raise A e).
Proof.
  intros st r st' E. inversion E; subst. split; [reflexivity|].
  exists []. split; [now rewrite app_nil_r|constructor].
Qed.

Lemma confined_lift {A} (allowed : command -> Prop) (x : result A) :
  confined allowed (lift x).
Proof.
  intros st r st' E. inversion E; subst. split; [reflexivity|].
  exists []. split; [now rewrite app_nil_r|constructor].
Qed.

Lemma confined_then (allowed : command -> Prop) (st st1 st2 : state)
  (sent1 : list call) :
  self st1 = self st ->
  log st1 = (log st ++ sent1)%list ->
  Forall (admitted (imap (self st)) allowed) sent1 ->
  (self st2 = self st1 /\
   exists sent, log st2 = (log st1 ++ sent)%list /\
                Forall (admitted (imap (self st1)) allowed) sent) ->
  self st2 = self st /\
  exists sent, log st2 = (log st ++ sent)%list /\
               Forall (admitted (imap (self st)) allowed) sent.
Proof.
  intros S1 L1 F1 [S2 [sent2 [L2 F2]]]. split; [congruence|].
  exists (sent1 ++ sent2)%list. split.
  - now rewrite L2, L1, app_assoc.
  - apply Forall_app. split; [exact F1|]. now rewrite S1 in F2.
Qed.

Lemma confined_bind {A B} (allowed : command -> Prop) (m : M A)
  (f : A -> M B) :
  confined allowed m -> (forall a, confined allowed (f a)) ->
  confined allowed (bind m f).
Proof.
  intros Hm Hf st r st' E. unfold bind in E.
  destruct (m st) as [[a|e] st1] eqn:Em.
  - destruct (Hm _ _ _ Em) as [S1 [sent1 [L1 F1]]].
    apply (confined_then allowed st st1 st' sent1 S1 L1 F1).
    exact (Hf a _ _ _ E).
  - inversion E; subst. exact (Hm _ _ _ Em).
Qed.

Lemma confined_try_except {A} (allowed : command -> Prop) (body : M A)
  (ds : list exc_class) (handler : exception -> M A) :
  confined allowed body -> (forall e, confined allowed (handler e)) ->
  confined allowed (try_except body ds handler).
Proof.
  intros Hb Hh st r st' E. unfold try_except in E.
  destruct (body st) as [[a|e] st1] eqn:Eb.
  - inversion E; subst. exact (Hb _ _ _ Eb).
  - destruct (catches ds e).
    + destruct (Hb _ _ _ Eb) as [S1 [sent1 [L1 F1]]].
      apply (confined_then allowed st st1 st' sent1 S1 L1 F1).
      exact (Hh e _ _ _ E).
    + inversion E; subst. exact (Hb _ _ _ Eb).
Qed.

Lemma confined_imap_call (allowed : command -> Prop) (name : str)
  (c : command) :
  allowed c -> confined allowed (imap_call name c).
Proof.
  intros Hc st r st' E. unfold imap_call in E.
  destruct (imap (self st)) as [h|] eqn:Hh.
  - unfold library_call in E.
    assert (E' : st' = after st [Method h c])
      by (destruct (imaplib (log st) (Method h c)); now inversion E).
    subst st'. split; [reflexivity|].
    exists [Method h c]. split; [reflexivity|].
    constructor; [|constructor]. simpl. now split.
  - inversion E; subst. split; [reflexivity|].
    exists []. split; [now rewrite app_nil_r|constructor].
Qed.

Lemma confined_weaken {A} (allowed allowed' : command -> Prop) (m : M A) :
  (forall c, allowed c -> allowed' c) ->
  confined allowed m -> confined allowed' m.
Proof.
  intros W H st r st' E. destruct (H _ _ _ E) as [S [sent [L F]]].
  split; [exact S|]. exists sent. split; [exact L|].
  eapply Forall_impl; [|exact F].
  intros c. unfold admitted. destruct (imap (self st)); [|tauto].
  destruct c; [tauto|]. intros [Hh Hc]. split; [exact Hh|now apply W].
Qed.

Lemma confined_is_logged (allowed : command -> Prop) :
  allowed NOOP -> confined allowed is_logged.
Proof.
  intros Hn st r st' E. unfold is_logged in E.
  destruct (imap (self st)) eqn:Hh.
  - assert (C : confined allowed
                  (try_except (imap_call "noop" NOOP ;;; ret true)
                     [IMAP4_error] (fun _ => ret false))).
    { apply confined_try_except.
      - apply confined_bind; [now apply confined_imap_call|].
        intros _. apply confined_ret.
      - intros _. apply confined_ret. }
    rewrite <- Hh. exact (C _ _ _ E).
  - inversion E; subst. split; [reflexivity|].
    exists []. split; [now rewrite app_nil_r|constructor].
Qed.

Lemma confined_for_each {A B} (allowed : command -> Prop)
  (body : A -> B -> M B) (indexes : list A) :
  (forall i acc, confined allowed (body i acc)) ->
  forall acc, confined allowed (for_each indexes body acc).
Proof.
  intros Hb. induction indexes as [|i rest IH]; intros acc; simpl.
  - apply confined_ret.
  - apply confined_bind; [apply Hb|exact IH].
Qed.

(** Take a method apart along its binds and handlers. *)
Ltac confine :=
  repeat first
    [ apply confined_ret
    | apply confined_raise
    | apply confined_lift
    | apply confined_is_logged
    | apply confined_imap_call
    | apply confined_try_except; [|intros ?]
    | apply confined_bind; [|intros ?]
    | match goal with
      | |- confined _ (if ?c then _ else _) => destruct c
      | |- confined _ (let '(_, _) := ?p in _) => destruct p
      end ].

(** X1: every method but [connect] leaves the session object as it is
    and sends only its own commands, on the session's own connection:
    the NOOP of the probe and the one or two commands of the
    operation, with the arguments it was given. *)
Theorem methods_confined :
  confined (fun c => c = NOOP) is_logged /\
  confined (fun c => c = NOOP \/ c = LOGOUT) disconnect /\
  (forall mailbox,
     confined (fun c => c = NOOP \/ c = SELECT mailbox)
       (select_mailbox mailbox)) /\
  (forall criteria,
     confined (fun c => c = NOOP \/ c = SEARCH None criteria)
       (search_emails criteria)) /\
  (forall uids,
     confined (fun c => c = NOOP \/ c = FETCH uids "(RFC822)")
       (fetch_emails uids)) /\
  (forall uids,
     confined (fun c => c = NOOP \/ c = STORE uids "+FLAGS" "\Deleted"
                        \/ c = EXPUNGE)
       (delete_emails uids)) /\
  (forall uids mailbox,
     confined (fun c => c = NOOP
                        \/ c = STORE uids "+FLAGS" ("\" ++ mailbox)
                        \/ c = EXPUNGE)
       (move_emails uids mailbox)) /\
  (forall directory pattern,
     confined (fun c => c = NOOP \/ c = LIST directory pattern)
       (list_mailboxes directory pattern)) /\
  (forall old new,
     confined (fun c => c = NOOP \/ c = RENAME old new)
       (rename_mailbox old new)) /\
  (forall mailbox,
     confined (fun c => c = NOOP \/ c = CREATE mailbox)
       (new_mailbox mailbox)) /\
  (forall mailbox,
     confined (fun c => c = NOOP \/ c = DELETE mailbox)
       (delete_mailbox mailbox)).
Proof.
  repeat match goal with |- _ /\ _ => split end; intros;
    unfold disconnect, select_mailbox, search_emails, fetch_emails,
      delete_emails, move_emails, list_mailboxes, rename_mailbox,
      new_mailbox, delete_mailbox, not_connected;
    confine; auto.
Qed.

Lemma confined_disconnect (allowed : command -> Prop) :
  allowed NOOP -> allowed LOGOUT -> confined allowed disconnect.
Proof.
  intros Hn Hl. unfold disconnect. confine; assumption.
Qed.

Lemma confined_with_client {A} (allowed : command -> Prop) (body : M A) :
  allowed NOOP -> allowed LOGOUT ->
  confined allowed body -> confined allowed (with_client body).
Proof.
  intros Hn Hl Hb st r st' E. unfold with_client in E.
  destruct (body st) as [r0 st1] eqn:Eb.
  destruct (Hb _ _ _ Eb) as [S1 [sent1 [L1 F1]]].
  apply (confined_then allowed st st1 st' sent1 S1 L1 F1).
  destruct (disconnect st1) as [[u|e] st2] eqn:Ed; inversion E; subst;
    exact (confined_disconnect allowed Hn Hl _ _ _ Ed).
Qed.

Lemma confined_fetch_batches (allowed : command -> Prop)
  (ids : list bytes) (batch_size : Z) :
  allowed NOOP -> (forall uids, allowed (FETCH uids "(RFC822)")) ->
  confined allowed (fetch_batches ids batch_size).
Proof.
  intros Hn Hf. unfold fetch_batches.
  apply confined_bind; [apply confined_lift|]. intros indexes.
  apply confined_for_each. intros i acc.
  unfold batch_step, fetch_emails, not_connected. confine; auto.
Qed.

(** A handler run from a log [l]: one constructor call, then, if it
    returned, the rest on the new connection. *)
Lemma handler_run {A} (IMAP_SERVER USERNAME PASSWORD : str) (body : M A)
  (l : list call) :
  let c := IMAP4_SSL IMAP_SERVER 993 None None in
  with_client (connect USERNAME PASSWORD ;;; body)
    {| self := init IMAP_SERVER 993 None None; log := l |}
  = match imaplib l c with
    | Raises e =>
        (if issubclass (exc_type e) IMAP4_error
         then Raise (Exc ConnectionError
                       ("Failed to connect to IMAP server: " ++ exc_str e))
         else Raise e,
         {| self := init IMAP_SERVER 993 None None;
            log := (l ++ [c])%list |})
    | Returns _ _ =>
        after_constructor USERNAME PASSWORD body
          {| self := set_imap (init IMAP_SERVER 993 None None)
                              (fresh_handle l);
             log := (l ++ [c])%list |}
    end.
Proof.
  intros c. unfold after_constructor, with_client, bind at 1, connect.
  unfold bind at 1, is_logged. simpl.
  unfold try_except at 1, bind at 1, open_connection, library_call. simpl.
  fold c. destruct (imaplib l c) as [e|typ data].
  - unfold catches; simpl. rewrite orb_false_r, orb_diag.
    destruct (issubclass (exc_type e) IMAP4_error); reflexivity.
  - reflexivity.
Qed.

Lemma handler_confined {A} (allowed : command -> Prop)
  (IMAP_SERVER USERNAME PASSWORD : str) (body : M A) (l : list call)
  (r : result A) (st' : state) :
  allowed NOOP -> allowed LOGOUT -> allowed (LOGIN USERNAME PASSWORD) ->
  confined allowed body ->
  with_client (connect USERNAME PASSWORD ;;; body)
    {| self := init IMAP_SERVER 993 None None; log := l |} = (r, st') ->
  exists sent,
    log st' = (l ++ IMAP4_SSL IMAP_SERVER 993 None None :: sent)%list /\
    Forall (admitted (Some (fresh_handle l)) allowed) sent.
Proof.
  intros Hn Hl Hin Hb E. rewrite handler_run in E.
  destruct (imaplib l _) as [e|typ data].
  - inversion E; subst. exists []. split; [reflexivity|constructor].
  - assert (C : confined allowed (after_constructor USERNAME PASSWORD body)).
    { unfold after_constructor. apply confined_with_client; try assumption.
      confine; assumption. }
    destruct (C _ _ _ E) as [_ [sent [L F]]]. simpl in L, F.
    exists sent. split; [|exact F]. rewrite L, <- app_assoc. reflexivity.
Qed.

(** X2: whatever the server does and whatever the arguments are,
    [get_emails] builds exactly one connection, first thing, to port
    993 of the configured host, and every other call it makes is a
    LOGIN, NOOP, SELECT, SEARCH, FETCH or LOGOUT on that connection:
    it never stores a flag, expunges, or creates, renames or deletes a
    mailbox. *)
Theorem get_emails_reads_only (IMAP_SERVER USERNAME PASSWORD : str)
  (mailbox : option str) (criteria : str) (batch_size : Z)
  (l l' : list call) (r : result (list EmailMessage)) :
  get_emails IMAP_SERVER USERNAME PASSWORD mailbox criteria batch_size l
    = (r, l') ->
  exists sent,
    l' = (l ++ IMAP4_SSL IMAP_SERVER 993 None None :: sent)%list /\
    Forall (admitted (Some (fresh_handle l)) reading_command) sent.
Proof.
  unfold get_emails. intros E.
  destruct (with_client _ _) as [r0 st] eqn:W. inversion E; subst.
  refine (handler_confined reading_command _ _ _ _ _ _ _ I I I _ W).
  apply confined_bind; [|intros _; apply confined_bind].
  - unfold select_mailbox, not_connected. confine; exact I.
  - unfold search_emails, not_connected. confine; exact I.
  - intros ids. apply confined_fetch_batches; [exact I|intros; exact I].
Qed.

(** X3: likewise [get_mailboxes] builds one connection and sends on it
    nothing but LOGIN, NOOP, LIST and LOGOUT. *)
Theorem get_mailboxes_lists_only (IMAP_SERVER USERNAME PASSWORD : str)
  (directory pattern : str) (l l' : list call) (r : result (list str)) :
  get_mailboxes IMAP_SERVER USERNAME PASSWORD directory pattern l
    = (r, l') ->
  exists sent,
    l' = (l ++ IMAP4_SSL IMAP_SERVER 993 None None :: sent)%list /\
    Forall (admitted (Some (fresh_handle l)) listing_command) sent.
Proof.
  unfold get_mailboxes. intros E.
  destruct (with_client _ _) as [r0 st] eqn:W. inversion E; subst.
  refine (handler_confined listing_command _ _ _ _ _ _ _ I I I _ W).
  unfold list_mailboxes, not_connected. confine; exact I.
Qed.

(** ** Errors *)

Lemma bind_raises {A B} (m : M A) (f : A -> M B) (st st' : state)
  (e : exception) :
  m st = (Raise e, st') -> bind m f st = (Raise e, st').
Proof. unfold bind. now intros ->. Qed.

(** The errors of an operation that checks the login and wraps
    whatever its body raises. *)
Lemma guarded_errors {A} (body : M A) (handler : exception -> M A)
  (st st' : state) (e : exception) :
  (forall e0 st0,
     exists m, handler e0 st0 = (Raise (Exc RuntimeError m), st0)) ->
  requires_login (try_except body [Exception] handler) st = (Raise e, st') ->
  e = Exc ConnectionError "Not connected to IMAP server" \/
  exc_type e = RuntimeError \/
  exists h, imap (self st) = Some h /\
            imaplib (log st) (Method h NOOP) = Raises e /\
            issubclass (exc_type e) IMAP4_error = false.
Proof.
  intros Hh E. unfold requires_login, bind at 1 in E.
  pose proof (is_logged_cases st) as C.
  destruct (is_logged st) as [[[|]|e0] st1] eqn:L.
  - right; left. simpl in E. unfold try_except in E.
    destruct (body st1) as [[a|e1] st2]; [discriminate|].
    rewrite catches_Exception in E. destruct (Hh e1 st2) as [m Hm].
    rewrite Hm in E. now inversion E.
  - left. simpl in E. now inversion E.
  - right; right. inversion E; subst.
    destruct (imap (self st)) as [h|]; [|discriminate].
    exists h. split; [reflexivity|].
    destruct (imaplib (log st) (Method h NOOP)) as [e1|typ data];
      [|discriminate].
    destruct (issubclass (exc_type e1) IMAP4_error) eqn:Sub;
      [discriminate|].
    inversion C; subst. now split.
Qed.

(** X4: an operation raises nothing but the [ConnectionError] of the
    login check, a [RuntimeError], or the very exception of the NOOP
    probe when that is no [IMAP4.error]: an exception of the
    operation's own library call or of its parsing never comes out as
    it is. *)
Theorem operations_raise_only (st st' : state) (e : exception) :
  let contract :=
    e = Exc ConnectionError "Not connected to IMAP server" \/
    exc_type e = RuntimeError \/
    exists h, imap (self st) = Some h /\
              imaplib (log st) (Method h NOOP) = Raises e /\
              issubclass (exc_type e) IMAP4_error = false in
  (forall mailbox, select_mailbox mailbox st = (Raise e, st') -> contract) /\
  (forall criteria, search_emails criteria st = (Raise e, st') -> contract) /\
  (forall uids, fetch_emails uids st = (Raise e, st') -> contract) /\
  (forall uids, delete_emails uids st = (Raise e, st') -> contract) /\
  (forall uids mailbox,
     move_emails uids mailbox st = (Raise e, st') -> contract) /\
  (forall directory pattern,
     list_mailboxes directory pattern st = (Raise e, st') -> contract) /\
  (forall old new, rename_mailbox old new st = (Raise e, st') -> contract) /\
  (forall mailbox, new_mailbox mailbox st = (Raise e, st') -> contract) /\
  (forall mailbox, delete_mailbox mailbox st = (Raise e, st') -> contract).
Proof.
  intros contract. subst contract.
  repeat match goal with |- _ /\ _ => split end; intros * E;
    (eapply guarded_errors; [|exact E]);
    intros e0 st0; eexists; reflexivity.
Qed.

(** X5: when the NOOP of the probe raises something that is no
    [IMAP4.error], a timeout say, every method fails with that very
    exception, unwrapped, and sends nothing else. *)
Theorem probe_exception_escapes (st : state) (h : handle) (e : exception) :
  imap (self st) = Some h ->
  imaplib (log st) (Method h NOOP) = Raises e ->
  issubclass (exc_type e) IMAP4_error = false ->
  let st' := after st [Method h NOOP] in
  is_logged st = (Raise e, st') /\
  (forall account password, connect account password st = (Raise e, st')) /\
  disconnect st = (Raise e, st') /\
  (forall mailbox, select_mailbox mailbox st = (Raise e, st')) /\
  (forall criteria, search_emails criteria st = (Raise e, st')) /\
  (forall uids, fetch_emails uids st = (Raise e, st')) /\
  (forall uids, delete_emails uids st = (Raise e, st')) /\
  (forall uids mailbox, move_emails uids mailbox st = (Raise e, st')) /\
  (forall directory pattern,
     list_mailboxes directory pattern st = (Raise e, st')) /\
  (forall old new, rename_mailbox old new st = (Raise e, st')) /\
  (forall mailbox, new_mailbox mailbox st = (Raise e, st')) /\
  (forall mailbox, delete_mailbox mailbox st = (Raise e, st')).
Proof.
  intros Hh R Sub st'.
  assert (L : is_logged st = (Raise e, st')).
  { pose proof (is_logged_cases st) as C. now rewrite Hh, R, Sub in C. }
  split; [exact L|].
  repeat match goal with |- _ /\ _ => split end; intros;
    apply bind_raises; exact L.
Qed.

(** One library call behind the login check, its result thrown away. *)
Lemma single_call_cases (name : str) (c : command)
  (handler : exception -> M unit) (st st' : state) (h : handle) :
  authenticated st st' ->
  imap (self st) = Some h ->
  requires_login
    (try_except (imap_call name c ;;; ret tt) [Exception] handler) st
  = match imaplib (log st') (Method h c) with
    | Raises e => handler e (after st' [Method h c])
    | Returns _ _ => (Ok tt, after st' [Method h c])
    end.
Proof.
  intros H Hh.
  assert (Hh' : imap (self st') = Some h).
  { destruct (authenticated_inv _ _ H) as [h' [E ->]]. exact Hh. }
  rewrite (requires_login_passed _ _ _ H). unfold try_except, bind.
  rewrite (imap_call_some _ _ _ _ Hh').
  destruct (imaplib (log st') (Method h c)) as [e|typ data].
  - now rewrite catches_Exception.
  - reflexivity.
Qed.

(** X6: [select_mailbox], [new_mailbox], [rename_mailbox] and
    [delete_mailbox] do not look at the status the library returns: on
    an authenticated session they return normally whenever the library
    call returns, be the status OK, NO or anything else. *)
Theorem mailbox_calls_ignore_status (st st' : state) (h : handle)
  (typ : str) (data : list datum) :
  authenticated st st' ->
  imap (self st) = Some h ->
  (forall mailbox,
     imaplib (log st') (Method h (SELECT mailbox)) = Returns typ data ->
     select_mailbox mailbox st
     = (Ok tt, after st' [Method h (SELECT mailbox)])) /\
  (forall mailbox,
     imaplib (log st') (Method h (CREATE mailbox)) = Returns typ data ->
     new_mailbox mailbox st
     = (Ok tt, after st' [Method h (CREATE mailbox)])) /\
  (forall old new,
     imaplib (log st') (Method h (RENAME old new)) = Returns typ data ->
     rename_mailbox old new st
     = (Ok tt, after st' [Method h (RENAME old new)])) /\
  (forall mailbox,
     imaplib (log st') (Method h (DELETE mailbox)) = Returns typ data ->
     delete_mailbox mailbox st
     = (Ok tt, after st' [Method h (DELETE mailbox)])).
Proof.
  intros H Hh.
  repeat match goal with |- _ /\ _ => split end; intros * R;
    (etransitivity; [apply (single_call_cases _ _ _ st st' h H Hh)|]);
    cbv beta; now rewrite R.
Qed.

(** X7: [delete_emails] is two calls, not one step: EXPUNGE is sent
    exactly when STORE has returned, whatever status STORE returned;
    when EXPUNGE raises, the error comes after the flag was stored.
    Either failure is a [RuntimeError] whose text starts with "Error
    retrieving mailboxes". *)
Theorem delete_emails_two_steps (uids : str) (st st' : state) (h : handle) :
  authenticated st st' ->
  imap (self st) = Some h ->
  let store := Method h (STORE uids "+FLAGS" "\Deleted") in
  let expunge := Method h EXPUNGE in
  let wrap e :=
    Exc RuntimeError ("Error retrieving mailboxes: " ++ exc_str e) in
  delete_emails uids st =
    match imaplib (log st') store with
    | Raises e => (Raise (wrap e), after st' [store])
    | Returns _ _ =>
        match imaplib (log st' ++ [store])%list expunge with
        | Raises e => (Raise (wrap e), after st' [store; expunge])
        | Returns _ _ => (Ok tt, after st' [store; expunge])
        end
    end.
Proof.
  intros H Hh store expunge wrap.
  assert (Hh' : imap (self st') = Some h).
  { destruct (authenticated_inv _ _ H) as [h' [E ->]]. exact Hh. }
  pass_login H. apply (store_expunge_cases _ wrap uids st' h Hh').
Qed.

(** ** Connecting and leaving *)

Lemma connect_after_probe (account password : str) (st st' : state) :
  not_authenticated st st' ->
  connect account password st =
    try_except
      (open_connection ;;;
       imap_call "login" (LOGIN account password) ;;; ret tt)
      [IMAP4_error; IMAP4_error]
      (fun e => raise (Exc ConnectionError
                         ("Failed to connect to IMAP server: "
                          ++ exc_str e))) st'.
Proof.
  unfold not_authenticated, connect, bind at 1. now intros ->.
Qed.

(** The two calls of [connect] on a session that is not authenticated. *)
Lemma connect_login_cases (account password : str)
  (st st' : state) (typ : str) (data : list datum) :
  not_authenticated st st' ->
  let s := self st' in
  let c := IMAP4_SSL (host s) (port s) (sslcontext s) (timeout s) in
  let h := fresh_handle (log st') in
  let st1 := {| self := set_imap s h; log := (log st' ++ [c])%list |} in
  let login := Method h (LOGIN account password) in
  imaplib (log st') c = Returns typ data ->
  connect account password st =
    (match imaplib (log st1) login with
     | Returns _ _ => Ok tt
     | Raises e =>
         if issubclass (exc_type e) IMAP4_error
         then Raise (Exc ConnectionError
                       ("Failed to connect to IMAP server: " ++ exc_str e))
         else Raise e
     end,
     after st1 [login]).
Proof.
  intros H s c h st1 login R. rewrite (connect_after_probe _ _ _ _ H).
  unfold try_except, bind at 1, open_connection, library_call.
  fold s. fold c. rewrite R. fold h. fold st1.
  unfold bind. rewrite (imap_call_some _ _ st1 h eq_refl). fold login.
  destruct (imaplib (log st1) login) as [e|typ' data']; [|reflexivity].
  unfold catches; simpl. rewrite orb_false_r, orb_diag.
  destruct (issubclass (exc_type e) IMAP4_error); reflexivity.
Qed.

(** X8: on a session that is not authenticated, once the constructor
    has returned, [connect] stores the new connection object in the
    session and sends LOGIN on it.  It returns when LOGIN returns; an
    [IMAP4.error] of LOGIN becomes a [ConnectionError] that carries
    its text, any other exception comes out as it is.  In every case
    the new connection object stays in the session. *)
Theorem connect_builds_connection (account password : str)
  (st st' : state) (typ : str) (data : list datum) :
  not_authenticated st st' ->
  let s := self st' in
  let c := IMAP4_SSL (host s) (port s) (sslcontext s) (timeout s) in
  let h := fresh_handle (log st') in
  let st1 := {| self := set_imap s h; log := (log st' ++ [c])%list |} in
  let login := Method h (LOGIN account password) in
  imaplib (log st') c = Returns typ data ->
  connect account password st =
    (match imaplib (log st1) login with
     | Returns _ _ => Ok tt
     | Raises e =>
         if issubclass (exc_type e) IMAP4_error
         then Raise (Exc ConnectionError
                       ("Failed to connect to IMAP server: " ++ exc_str e))
         else Raise e
     end,
     after st1 [login]).
Proof.
  intros H s c h st1 login R.
  exact (connect_login_cases account password st st' typ data H R).
Qed.

(** X9: a failed login leaves a session that passes the login check.
    After [connect] has raised because LOGIN was rejected, the session
    holds the connection; if the server answers NOOP on it,
    [is_logged] reports true, and a second [connect], with whatever
    credentials, returns at once without sending LOGIN. *)
Theorem failed_login_passes_probe (account password : str)
  (st st' : state) (typ typ' : str) (data data' : list datum)
  (e : exception) :
  not_authenticated st st' ->
  let s := self st' in
  let c := IMAP4_SSL (host s) (port s) (sslcontext s) (timeout s) in
  let h := fresh_handle (log st') in
  let login := Method h (LOGIN account password) in
  imaplib (log st') c = Returns typ data ->
  imaplib (log st' ++ [c])%list login = Raises e ->
  imaplib (log st' ++ [c; login])%list (Method h NOOP) = Returns typ' data' ->
  let st2 := snd (connect account password st) in
  (exists e', fst (connect account password st) = Raise e') /\
  imap (self st2) = Some h /\
  is_logged st2 = (Ok true, after st2 [Method h NOOP]) /\
  (forall account' password',
     connect account' password' st2 = (Ok tt, after st2 [Method h NOOP])).
Proof.
  intros H s c h login R RL RN st2.
  pose proof (connect_login_cases account password st st' typ data
                H R) as C.
  cbv zeta in C. fold s c h login in C. simpl log in C. rewrite RL in C.
  subst st2. rewrite C. simpl fst. simpl snd.
  split; [destruct (issubclass (exc_type e) IMAP4_error); eexists;
          reflexivity|].
  split; [reflexivity|].
  assert (L : is_logged
                (after {| self := set_imap s h;
                          log := (log st' ++ [c])%list |} [login])
              = (Ok true,
                 after (after {| self := set_imap s h;
                                 log := (log st' ++ [c])%list |} [login])
                       [Method h NOOP])).
  { pose proof (is_logged_cases
                  (after {| self := set_imap s h;
                            log := (log st' ++ [c])%list |} [login])) as K.
    simpl in K. rewrite <- app_assoc in K. simpl in K. rewrite RN in K.
    exact K. }
  split; [exact L|].
  intros account' password'. unfold connect, bind at 1. now rewrite L.
Qed.

(** X10: leaving the [with] block.  The outcome of the block stands
    when [disconnect] finds the session not authenticated or LOGOUT
    returns; when LOGOUT raises, a [RuntimeError] takes its place, be
    it a result or an exception. *)
Theorem with_client_outcome {A} (body : M A) (st st1 : state)
  (r1 : result A) :
  body st = (r1, st1) ->
  (forall st2, not_authenticated st1 st2 ->
     with_client body st = (r1, st2)) /\
  (forall st2 h,
     authenticated st1 st2 -> imap (self st1) = Some h ->
     with_client body st =
       match imaplib (log st2) (Method h LOGOUT) with
       | Returns _ _ => (r1, after st2 [Method h LOGOUT])
       | Raises e =>
           (Raise (Exc RuntimeError
                     ("Error closing connection: " ++ exc_str e)),
            after st2 [Method h LOGOUT])
       end).
Proof.
  intros B. unfold with_client. rewrite B. split.
  - intros st2 N. now rewrite (disconnect_not_authenticated _ _ N).
  - intros st2 h H Hh. pose proof (disconnect_cases _ _ _ H Hh) as D.
    destruct (imaplib (log st2) (Method h LOGOUT)); now rewrite D.
Qed.

(** ** The batch loop at its edges *)

(** X11: a batch size of zero makes the loop raise [ValueError] before
    anything is fetched; a negative one, or an empty identifier
    sequence, makes it return the empty list, again with nothing
    sent. *)
Theorem fetch_batches_nothing_to_do (ids : list bytes) (batch_size : Z)
  (st : state) :
  (batch_size = 0 ->
   fetch_batches ids batch_size st
   = (Raise (Exc ValueError "range() arg 3 must not be zero"), st)) /\
  (batch_size < 0 \/ (ids = [] /\ batch_size <> 0) ->
   fetch_batches ids batch_size st = (Ok [], st)).
Proof.
  split.
  - intros ->. reflexivity.
  - intros H. unfold fetch_batches, bind at 1, lift, range, len.
    destruct (Z.eqb_spec batch_size 0) as [|Hz]; [lia|].
    destruct (Z.ltb_spec 0 batch_size) as [Hp|Hp].
    + destruct H as [H|[-> _]]; [lia|]. reflexivity.
    + destruct (Z.ltb_spec (Z.of_nat (length ids)) 0); [lia|]. reflexivity.
Qed.

(** X12: a batch size that covers the whole sequence gives one window,
    the sequence itself. *)
Theorem windows_single (ids : list bytes) (batch_size : Z) :
  ids <> [] ->
  len ids <= batch_size ->
  windows ids batch_size = [ids].
Proof.
  intros Hne Hle. unfold len in Hle.
  assert (Hn : (1 <= length ids)%nat)
    by (destruct ids; [congruence|simpl; lia]).
  rewrite windows_eq by lia.
  assert (Hc : window_count ids batch_size = 1%nat).
  { unfold window_count, len.
    assert (E : (Z.of_nat (length ids) + batch_size - 1) / batch_size = 1).
    { symmetry.
      apply (Z.div_unique _ _ 1 (Z.of_nat (length ids) - 1)); lia. }
    now rewrite E. }
  rewrite Hc. simpl. f_equal. apply firstn_all2. lia.
Qed.

(** ** Parsing the replies *)

Lemma comprehension_all {A B} (f : A -> result B) (xs : list A)
  (ys : list B) :
  Forall2 (fun x y => f x = Ok y) xs ys -> comprehension f xs = Ok ys.
Proof.
  induction 1 as [|x y xs ys Hx _ IH]; simpl; [reflexivity|].
  now rewrite Hx, IH.
Qed.

Lemma comprehension_one_fails {A B} (f : A -> result B) (xs : list A) :
  Exists (fun x => exists e, f x = Raise e) xs ->
  exists e, comprehension f xs = Raise e.
Proof.
  induction xs as [|x xs IH]; intros H; [inversion H|]. simpl.
  destruct (f x) as [y|e] eqn:Fx; [|now exists e].
  inversion H as [? ? [e He]|? ? Hr]; subst; [congruence|].
  destruct (IH Hr) as [e He]. exists e. simpl. now rewrite He.
Qed.

Lemma split_ws_words (x : bytes) :
  forall cur, no_space cur = true ->
    Forall (fun w => w <> [] /\ no_space w = true) (split_ws cur x).
Proof.
  assert (R : forall cur, cur <> [] -> no_space cur = true ->
                rev cur <> [] /\ no_space (rev cur) = true).
  { intros cur Hne Hs. split.
    - intros E. apply Hne. apply (f_equal (@rev byte)) in E.
      now rewrite rev_involutive in E.
    - unfold no_space in *. rewrite forallb_forall in *.
      intros c Hc. apply Hs. now apply in_rev. }
  induction x as [|c x IH]; intros cur Hs; simpl.
  - destruct cur as [|c0 cur]; constructor; [|constructor].
    now apply R.
  - destruct (is_space c) eqn:Sp.
    + destruct cur as [|c0 cur]; [now apply IH|].
      constructor; [now apply R|now apply IH].
    + apply IH. unfold no_space in *. simpl. now rewrite Sp.
Qed.

Lemma split_ws_concat (x : bytes) :
  forall cur,
    concat (split_ws cur x)
    = (rev cur ++ filter (fun c => negb (is_space c)) x)%list.
Proof.
  induction x as [|c x IH]; intros cur; simpl.
  - destruct cur; simpl; now rewrite ?app_nil_r.
  - destruct (is_space c) eqn:Sp; simpl.
    + destruct cur as [|c0 cur]; simpl; rewrite IH; reflexivity.
    + rewrite IH. simpl. now rewrite <- app_assoc.
Qed.

(** X13: what [search_emails] makes of an OK reply.  When the first
    element of the data is a bytes object, the identifiers are its
    words: none is empty, none has whitespace in it, and end to end
    they are the bytes of that element without the whitespace, so a
    reply with no identifier gives the empty list.  When the data is
    empty or starts with something else, [None] say, the call fails
    with a [RuntimeError]. *)
Theorem search_emails_ok_reply (criteria : str) (st st' : state)
  (h : handle) (data : list datum) :
  authenticated st st' ->
  imap (self st) = Some h ->
  let c := Method h (SEARCH None criteria) in
  imaplib (log st') c = Returns "OK" data ->
  (forall x rest, data = DBytes x :: rest ->
     search_emails criteria st = (Ok (bytes_split x), after st' [c]) /\
     Forall (fun w => w <> [] /\ no_space w = true) (bytes_split x) /\
     concat (bytes_split x) = filter (fun c => negb (is_space c)) x) /\
  ((forall x rest, data <> DBytes x :: rest) ->
   exists m,
     search_emails criteria st
     = (Raise (Exc RuntimeError ("Error searching emails: " ++ m)),
        after st' [c])).
Proof.
  intros H Hh c R.
  assert (Hh' : imap (self st') = Some h).
  { destruct (authenticated_inv _ _ H) as [h' [E ->]]. exact Hh. }
  assert (E : search_emails criteria st
              = match search_result data with
                | Ok ids => (Ok ids, after st' [c])
                | Raise e =>
                    (Raise (Exc RuntimeError
                              ("Error searching emails: " ++ exc_str e)),
                     after st' [c])
                end).
  { pass_login H. unfold try_except, bind.
    rewrite (imap_call_some _ _ _ _ Hh'). fold c. rewrite R.
    cbv beta iota. rewrite String.eqb_refl. unfold lift. destruct (search_result data); [reflexivity|].
    now rewrite catches_Exception. }
  split.
  - intros x rest ->. split; [exact E|]. split.
    + apply split_ws_words. reflexivity.
    + apply (split_ws_concat x []).
  - intros Hno. rewrite E.
    destruct data as [|[|x|hd lit] rest]; simpl; try (eexists; reflexivity).
    exfalso. exact (Hno x rest eq_refl).
Qed.

Lemma fetch_item_pair (m : bytes * bytes) :
  fetch_item (pair_of m) = Ok (message_from_bytes (snd m)).
Proof. reflexivity. Qed.

Lemma fetch_item_not_pair (d : datum) :
  is_pair d = false -> exists e, fetch_item d = Raise e.
Proof.
  destruct d as [|x|hd lit]; simpl; intros Hp; [eexists; reflexivity| |
    discriminate].
  destruct x as [|x0 [|x1 [|x2 x]]]; eexists; reflexivity.
Qed.

(** X14: what [fetch_emails] makes of an OK reply.  It looks at every
    second element of the data, starting with the first.  When all of
    these are pairs, it returns the parsed second components, one
    message per pair, in the order of the reply.  When one of them is
    not a pair, [None] or a lone bytes object, the call fails with a
    [RuntimeError] and returns no message at all. *)
Theorem fetch_emails_ok_reply (uids : str) (st st' : state) (h : handle)
  (data : list datum) :
  authenticated st st' ->
  imap (self st) = Some h ->
  let c := Method h (FETCH uids "(RFC822)") in
  imaplib (log st') c = Returns "OK" data ->
  (forall msgs, every_other data = map pair_of msgs ->
     fetch_emails uids st
     = (Ok (map (fun m => message_from_bytes (snd m)) msgs),
        after st' [c])) /\
  (existsb (fun d => negb (is_pair d)) (every_other data) = true ->
   exists m,
     fetch_emails uids st
     = (Raise (Exc RuntimeError
                 ("Error fetching email UIDs " ++ uids ++ ": " ++ m)),
        after st' [c])).
Proof.
  intros H Hh c R.
  assert (Hh' : imap (self st') = Some h).
  { destruct (authenticated_inv _ _ H) as [h' [E ->]]. exact Hh. }
  assert (E : fetch_emails uids st
              = match comprehension fetch_item (every_other data) with
                | Ok msgs => (Ok msgs, after st' [c])
                | Raise e =>
                    (Raise (Exc RuntimeError
                              ("Error fetching email UIDs " ++ uids ++ ": "
                               ++ exc_str e)),
                     after st' [c])
                end).
  { pass_login H. unfold try_except, bind.
    rewrite (imap_call_some _ _ _ _ Hh'). fold c. rewrite R.
    cbv beta iota. rewrite String.eqb_refl. unfold lift. destruct (comprehension _ _); [reflexivity|].
    now rewrite catches_Exception. }
  split.
  - intros msgs Hm. rewrite E, Hm.
    rewrite (comprehension_all fetch_item (map pair_of msgs)
               (map (fun m => message_from_bytes (snd m)) msgs));
      [reflexivity|].
    clear. induction msgs as [|m msgs IH]; simpl; constructor;
      [apply fetch_item_pair|exact IH].
  - intros Hx. rewrite E.
    destruct (comprehension_one_fails fetch_item (every_other data))
      as [e He].
    { apply existsb_exists in Hx. destruct Hx as [d [Hin Hd]].
      apply Exists_exists. exists d. split; [exact Hin|].
      apply fetch_item_not_pair. now destruct (is_pair d). }
    rewrite He. eexists. reflexivity.
Qed.

Lemma append_empty_r (s : str) : s ++ "" = s.
Proof. induction s as [|c s IH]; simpl; [reflexivity|now rewrite IH]. Qed.

Lemma append_assoc (s1 s2 s3 : str) : (s1 ++ s2) ++ s3 = s1 ++ s2 ++ s3.
Proof. induction s1 as [|c s1 IH]; simpl; [reflexivity|now rewrite IH]. Qed.

Lemma prefix_empty (s : str) : String.prefix "" s = true.
Proof. destruct s; reflexivity. Qed.

Lemma prefix_cons (a c : ascii) (s1 s2 : str) :
  String.prefix (String a s1) (String c s2)
  = if Ascii.eqb a c then String.prefix s1 s2 else false.
Proof.
  change (String.prefix (String a s1) (String c s2))
    with (match ascii_dec a c with
          | left _ => String.prefix s1 s2
          | right _ => false
          end).
  destruct (ascii_dec a c) as [E|E]; destruct (Ascii.eqb_spec a c);
    congruence.
Qed.

Lemma split_sep_cons (sep cur : str) (c : ascii) (s : str) :
  split_sep sep O cur (String c s)
  = if String.prefix sep (String c s)
    then cur :: split_sep sep (pred (String.length sep)) "" s
    else split_sep sep O (cur ++ String c EmptyString) s.
Proof. reflexivity. Qed.

Lemma delimiter_chars :
  delimiter
  = String " " (String "034" (String "/" (String "034"
      (String " " EmptyString)))).
Proof. reflexivity. Qed.

(** A string without the separator is one piece. *)
Lemma split_sep_absent (sep s : str) :
  contains sep s = false ->
  forall cur, split_sep sep O cur s = [cur ++ s].
Proof.
  induction s as [|c s IH]; intros Hc cur.
  - simpl. now rewrite append_empty_r.
  - change (contains sep (String c s))
      with (String.prefix sep (String c s) || contains sep s) in Hc.
    apply orb_false_elim in Hc. destruct Hc as [Hp Hc].
    change (split_sep sep 0 cur (String c s))
      with (if String.prefix sep (String c s)
            then cur :: split_sep sep (pred (String.length sep)) "" s
            else split_sep sep O (cur ++ String c EmptyString) s).
    rewrite Hp, (IH Hc), append_assoc. reflexivity.
Qed.

(** The delimiter token does not start inside flags that have no
    double quote. *)
Lemma split_sep_flags (flags : str) :
  has_char "034"%char flags = false ->
  forall cur rest,
    split_sep delimiter O cur (flags ++ delimiter ++ rest)
    = (cur ++ flags) :: split_sep delimiter O "" rest.
Proof.
  induction flags as [|c flags IH]; intros Hq cur rest.
  - rewrite append_empty_r. destruct rest; reflexivity.
  - simpl in Hq. apply orb_false_elim in Hq. destruct Hq as [Hc Hq].
    assert (P : String.prefix delimiter
                  (String c (flags ++ delimiter ++ rest)) = false).
    { rewrite delimiter_chars, prefix_cons.
      destruct (Ascii.eqb " " c); [|reflexivity].
      destruct flags as [|c2 flags]; cbn [append]; rewrite prefix_cons.
      - reflexivity.
      - simpl in Hq. apply orb_false_elim in Hq. destruct Hq as [Hc2 _].
        now rewrite Ascii.eqb_sym, Hc2. }
    change (String c flags ++ delimiter ++ rest)
      with (String c (flags ++ delimiter ++ rest)).
    rewrite split_sep_cons.
    rewrite P, (IH Hq), append_assoc. reflexivity.
Qed.

(** One listing line: flags, the delimiter token, the name. *)
Lemma listing_name_of_line (entry : str * str) :
  has_char "034"%char (fst entry) = false ->
  contains delimiter (snd entry) = false ->
  utf8_valid (line_of entry) = true ->
  listing_name (DBytes (line_of entry)) = Ok (snd entry).
Proof.
  intros Hq Hc Hu. unfold listing_name, decode. rewrite Hu.
  unfold line_of, encode. rewrite string_of_list_byte_of_string.
  unfold rbind, str_split.
  rewrite (split_sep_flags _ Hq), (split_sep_absent _ _ Hc). reflexivity.
Qed.

Lemma listing_name_no_delimiter (x : bytes) :
  utf8_valid x = true ->
  contains delimiter (string_of_list_byte x) = false ->
  listing_name (DBytes x)
  = Raise (Exc IndexError "list index out of range").
Proof.
  intros Hu Hc. unfold listing_name, decode. rewrite Hu.
  unfold rbind, str_split. rewrite (split_sep_absent _ _ Hc). reflexivity.
Qed.

Lemma list_mailboxes_parsed (directory pattern : bytes) (st st' : state)
  (h : handle) (data : list datum) :
  authenticated st st' ->
  imap (self st) = Some h ->
  imaplib (log st') (Method h (LIST directory pattern))
    = Returns "OK" data ->
  list_mailboxes directory pattern st
  = match comprehension listing_name data with
    | Ok names => (Ok names, after st' [Method h (LIST directory pattern)])
    | Raise e =>
        (Raise (Exc RuntimeError
                  ("Error retrieving mailboxes: " ++ exc_str e)),
         after st' [Method h (LIST directory pattern)])
    end.
Proof.
  intros H Hh R.
  assert (Hh' : imap (self st') = Some h).
  { destruct (authenticated_inv _ _ H) as [h' [E ->]]. exact Hh. }
  pass_login H. unfold try_except, bind.
  rewrite (imap_call_some _ _ _ _ Hh'), R.
  cbv beta iota. rewrite String.eqb_refl. unfold lift.
  destruct (comprehension _ _); [reflexivity|].
  now rewrite catches_Exception.
Qed.

(** X15: the names [list_mailboxes] returns.  For an OK reply whose
    lines are each some flags without a double quote, the delimiter
    token (a slash between double quotes, a space on either side) and
    a name in which that token does not occur, the result is the list
    of the names, in the order of the reply and exactly as they stand
    in it, quoted or not. *)
Theorem list_mailboxes_names (directory pattern : bytes) (st st' : state)
  (h : handle) (entries : list (str * str)) :
  authenticated st st' ->
  imap (self st) = Some h ->
  imaplib (log st') (Method h (LIST directory pattern))
    = Returns "OK" (map (fun e => DBytes (line_of e)) entries) ->
  Forall (fun e => has_char "034"%char (fst e) = false /\
                   contains delimiter (snd e) = false /\
                   utf8_valid (line_of e) = true) entries ->
  list_mailboxes directory pattern st
  = (Ok (map snd entries), after st' [Method h (LIST directory pattern)]).
Proof.
  intros H Hh R F. rewrite (list_mailboxes_parsed _ _ _ _ _ _ H Hh R).
  rewrite (comprehension_all listing_name _ (map snd entries));
    [reflexivity|].
  clear R. induction F as [|e entries [Hq [Hc Hu]] _ IH]; simpl; constructor;
    [now apply listing_name_of_line|exact IH].
Qed.

(** X16: one line without the delimiter token spoils the whole
    listing.  If an OK reply has a line, well-formed UTF-8, in which
    the token does not occur, as with a server whose hierarchy
    delimiter is a dot, [list_mailboxes] fails with a [RuntimeError]
    and returns no name at all. *)
Theorem list_mailboxes_other_delimiter (directory pattern : bytes)
  (st st' : state) (h : handle) (data : list datum) (x : bytes) :
  authenticated st st' ->
  imap (self st) = Some h ->
  imaplib (log st') (Method h (LIST directory pattern))
    = Returns "OK" data ->
  In (DBytes x) data ->
  utf8_valid x = true ->
  contains delimiter (string_of_list_byte x) = false ->
  exists m,
    list_mailboxes directory pattern st
    = (Raise (Exc RuntimeError ("Error retrieving mailboxes: " ++ m)),
       after st' [Method h (LIST directory pattern)]).
Proof.
  intros H Hh R Hin Hu Hc. rewrite (list_mailboxes_parsed _ _ _ _ _ _ H Hh R).
  destruct (comprehension_one_fails listing_name data) as [e He].
  { apply Exists_exists. exists (DBytes x). split; [exact Hin|].
    eexists. now apply listing_name_no_delimiter. }
  rewrite He. eexists. reflexivity.
Qed.

(** ** The identifier list on the wire *)

Lemma split_comma_piece (x : str) :
  has_char "," x = false ->
  forall cur rest,
    split_sep "," O cur (x ++ String "," rest)
    = (cur ++ x) :: split_sep "," O "" rest.
Proof.
  induction x as [|c x IH]; intros Hx cur rest.
  - change ("" ++ String "," rest) with (String "," rest).
    rewrite split_sep_cons, prefix_cons, prefix_empty, append_empty_r.
    reflexivity.
  - simpl in Hx. apply orb_false_elim in Hx. destruct Hx as [Hc Hx].
    change (String c x ++ String "," rest)
      with (String c (x ++ String "," rest)).
    rewrite split_sep_cons, prefix_cons, Ascii.eqb_sym, Hc.
    rewrite (IH Hx), append_assoc. reflexivity.
Qed.

Lemma split_comma_last (x : str) :
  has_char "," x = false ->
  forall cur, split_sep "," O cur x = [cur ++ x].
Proof.
  induction x as [|c x IH]; intros Hx cur.
  - simpl. now rewrite append_empty_r.
  - simpl in Hx. apply orb_false_elim in Hx. destruct Hx as [Hc Hx].
    rewrite split_sep_cons, prefix_cons, Ascii.eqb_sym, Hc.
    rewrite (IH Hx), append_assoc. reflexivity.
Qed.

Lemma join_split (xs : list str) :
  xs <> [] ->
  Forall (fun x => has_char "," x = false) xs ->
  str_split (join "," xs) "," = xs.
Proof.
  intros Hne F. unfold str_split, join.
  induction F as [|x xs Hx F IH]; [congruence|].
  destruct xs as [|y xs].
  - simpl. now rewrite (split_comma_last _ Hx).
  - change (String.concat "," (x :: y :: xs))
      with (x ++ String "," (String.concat "," (y :: xs))).
    rewrite (split_comma_piece _ Hx). simpl append.
    rewrite IH by congruence. reflexivity.
Qed.

(** X17: the message set a window is fetched with can be read back.
    For a window that is not empty, whose identifiers are well-formed
    UTF-8 and have no comma in them, the string handed to
    [fetch_emails] splits at its commas into exactly the identifiers
    of the window, in order.  An identifier that is not well-formed
    UTF-8 makes the join raise [UnicodeDecodeError]. *)
Theorem uids_str_reads_back (batch_uids : list bytes) :
  (batch_uids <> [] ->
   Forall (fun x => utf8_valid x = true /\
                    has_char "," (string_of_list_byte x) = false)
          batch_uids ->
   exists uids_str,
     uids_str_of batch_uids = Ok uids_str /\
     str_split uids_str "," = map string_of_list_byte batch_uids) /\
  (existsb (fun x => negb (utf8_valid x)) batch_uids = true ->
   exists m, uids_str_of batch_uids = Raise (Exc UnicodeDecodeError m)).
Proof.
  split.
  - intros Hne F. exists (join "," (map string_of_list_byte batch_uids)).
    split.
    + unfold uids_str_of.
      rewrite (comprehension_all decode batch_uids
                 (map string_of_list_byte batch_uids)); [reflexivity|].
      clear Hne. induction F as [|x xs [Hu _] _ IH]; simpl; constructor;
        [|exact IH].
      unfold decode. now rewrite Hu.
    + apply join_split.
      * destruct batch_uids; [congruence|discriminate].
      * apply Forall_map. eapply Forall_impl; [|exact F].
        intros x [_ Hc]. exact Hc.
  - intros Hx. unfold uids_str_of.
    induction batch_uids as [|x xs IH]; [discriminate|].
    simpl in Hx. simpl. unfold decode at 1.
    destruct (utf8_valid x) eqn:Hu; simpl in *.
    + destruct (IH Hx) as [m Hm].
      destruct (comprehension decode xs) as [ys|e]; simpl in *;
        [discriminate|].
      exists m. exact Hm.
    + eexists. reflexivity.
Qed.

End Session.

(** * The properties on the example servers *)

Lemma server_closing_closes : closes_on_logout server_closing.
Proof.
  intros l h H. unfold server_closing. rewrite H.
  eexists. split; reflexivity.
Qed.

(** The example of the specification: 23 identifiers in batches of 10
    make three windows, of 10, 10 and 3. *)
Example windows_23_by_10 :
  let ids := map b ["1"; "2"; "3"; "4"; "5"; "6"; "7"; "8"; "9"; "10";
                    "11"; "12"; "13"; "14"; "15"; "16"; "17"; "18"; "19";
                    "20"; "21"; "22"; "23"] in
  map (@length bytes) (windows ids 10) = [10; 10; 3]%nat /\
  map uids_str_of (windows ids 10)
  = [Ok "1,2,3,4,5,6,7,8,9,10"; Ok "11,12,13,14,15,16,17,18,19,20";
     Ok "21,22,23"].
Proof. vm_compute. split; reflexivity. Qed.

(** Seven identifiers in batches of three against a server that sends
    one message per identifier: three FETCH commands, seven messages. *)
Example fetch_batches_seven_by_three :
  let '(r, st') := fetch_batches server_faithful seven_ids 3 session_open in
  r = Ok (map (fun u => message_from_bytes (b ("msg" ++ u)))
              ["1"; "2"; "3"; "4"; "5"; "6"; "7"]) /\
  fetches (log st') = ["1,2,3"; "4,5,6"; "7"].
Proof. vm_compute. split; reflexivity. Qed.


(** Two calls of [connect] in a row against a server that accepts
    everything: one constructor call, one LOGIN, and the probe of the
    second call. *)
Example connect_twice :
  let '(r1, st1) := connect server_ok "user" "secret" session_new in
  let '(r2, st2) := connect server_ok "user" "secret" st1 in
  r1 = Ok tt /\ r2 = Ok tt /\ self st2 = self st1 /\
  log st2 = [IMAP4_SSL "imap.example.org" 993 None None;
             Method 0%nat (LOGIN "user" "secret");
             Method 0%nat NOOP].
Proof. vm_compute. repeat split; reflexivity. Qed.

(** The whole handler on seven messages in batches of three. *)
Example get_emails_seven_by_three :
  let searching : library :=
    fun l c =>
      match c with
      | Method _ (SEARCH _ _) => Returns "OK" [DBytes (b "1 2 3 4 5 6 7")]
      | _ => server_faithful l c
      end in
  let '(r, l) := get_emails searching "imap.example.org" "user" "secret"
                   (Some "INBOX") "ALL" 3 [] in
  (exists emails, r = Ok emails /\ length emails = 7%nat) /\
  fetches l = ["1,2,3"; "4,5,6"; "7"].
Proof.
  vm_compute. split; [eexists; split; reflexivity|reflexivity].
Qed.


(** C2, the claim as stated fails: the session holds a connection
    object, the server rejects the NOOP of the probe, so the session is
    not authenticated and [select_mailbox] is refused; but the NOOP
    went over the connection. *)
Lemma refused_after_probe_was_sent :
  not_authenticated server_stale session_open session_probed /\
  select_mailbox server_stale (Some "INBOX") session_open
    = (refused, session_probed) /\
  log session_probed = (log session_open ++ [Method 0%nat NOOP])%list /\
  log (snd (select_mailbox server_stale (Some "INBOX") session_open))
    <> log session_open.
Proof.
  repeat split; try reflexivity. vm_compute. discriminate.
Qed.

(** An instance of the theorem on C2. *)
Lemma operations_require_login_witness :
  not_authenticated server_stale session_open session_probed /\
  (forall uids, fetch_emails server_stale uids session_open
                = (refused, session_probed)) /\
  self session_probed = self session_open.
Proof.
  assert (H : not_authenticated server_stale session_open session_probed)
    by reflexivity.
  pose proof (operations_require_login server_stale session_open
                session_probed H) as T.
  split; [exact H|]. split.
  - exact (proj1 (proj2 (proj2 (proj1 T)))).
  - exact (proj1 (proj2 T)).
Defined.

(** C3, the claim as stated fails: the library raises nothing, the
    status is OK, and all three operations raise a [RuntimeError],
    the data [[None]] not being what they parse. *)
Lemma parse_failure_is_surfaced :
  authenticated server_ok_none session_open session_probed /\
  server_ok_none (log session_probed) (Method 0%nat (SEARCH None "ALL"))
    = Returns "OK" [DNone] /\
  fst (search_emails server_ok_none "ALL" session_open)
    = Raise (Exc RuntimeError
               "Error searching emails: 'NoneType' object has no attribute 'split'") /\
  fst (fetch_emails server_ok_none "1" session_open)
    = Raise (Exc RuntimeError
               "Error fetching email UIDs 1: cannot unpack non-iterable NoneType object") /\
  fst (list_mailboxes server_ok_none (b "") (b "*") session_open)
    = Raise (Exc RuntimeError
               "Error retrieving mailboxes: 'NoneType' object has no attribute 'decode'").
Proof. repeat split; reflexivity. Qed.

(** An instance of the theorem on C3: a reply with the status NO, and
    a reply with the status OK that does not parse. *)
Lemma reply_decides_outcome_witness :
  authenticated server_no session_open session_probed /\
  authenticated server_ok_none session_open session_probed /\
  search_emails server_no "ALL" session_open
    = (Ok [], after session_probed [Method 0%nat (SEARCH None "ALL")]) /\
  search_emails server_ok_none "ALL" session_open
    = (Raise (Exc RuntimeError
                "Error searching emails: 'NoneType' object has no attribute 'split'"),
       after session_probed [Method 0%nat (SEARCH None "ALL")]).
Proof.
  assert (H : authenticated server_no session_open session_probed)
    by reflexivity.
  assert (H' : authenticated server_ok_none session_open session_probed)
    by reflexivity.
  split; [exact H|]. split; [exact H'|]. split.
  - exact (proj1 (reply_decides_outcome server_no session_open
                    session_probed 0%nat H eq_refl) "ALL").
  - exact (proj1 (reply_decides_outcome server_ok_none session_open
                    session_probed 0%nat H' eq_refl) "ALL").
Defined.

(** C4, the code at a failing input: the host name does not resolve,
    the constructor raises [socket.gaierror], and [connect] lets it
    through as it is: the exception is not a [ConnectionError]. *)
Theorem connect_network_failure_unwrapped :
  connect server_unreachable "user" "secret" session_new
    = (Raise (Exc gaierror "[Errno -2] Name or service not known"),
       after session_new [IMAP4_SSL "imap.example.org" 993 None None]) /\
  issubclass gaierror ConnectionError = false.
Proof. split; reflexivity. Qed.

(** C5, the claim as stated fails: the names come back between double
    quotes, not as the plain strings INBOX and Sent. *)
Lemma list_mailboxes_not_plain :
  authenticated server_two_mailboxes session_open session_probed /\
  fst (list_mailboxes server_two_mailboxes (b "") (b "*") session_open)
    = Ok [quoted "INBOX"; quoted "Sent"] /\
  fst (list_mailboxes server_two_mailboxes (b "") (b "*") session_open)
    <> Ok ["INBOX"; "Sent"].
Proof.
  repeat split; try reflexivity. vm_compute. discriminate.
Qed.

(** An instance of the theorem on C5. *)
Lemma list_mailboxes_keeps_quotes_witness :
  authenticated server_two_mailboxes session_open session_probed /\
  list_mailboxes server_two_mailboxes (b "") (b "*") session_open
    = (Ok [quoted "INBOX"; quoted "Sent"],
       after session_probed [Method 0%nat (LIST (b "") (b "*"))]).
Proof.
  assert (H : authenticated server_two_mailboxes session_open session_probed)
    by reflexivity.
  split; [exact H|].
  exact (list_mailboxes_keeps_quotes server_two_mailboxes (b "") (b "*")
           session_open session_probed 0%nat H eq_refl eq_refl).
Defined.

(** An instance of the theorem on C6. *)
Lemma move_emails_sets_flag_witness :
  authenticated server_ok session_open session_probed /\
  move_emails server_ok "5,6" "Archive" session_open
    = (Ok tt,
       after session_probed
         [Method 0%nat (STORE "5,6" "+FLAGS" "\Archive");
          Method 0%nat EXPUNGE]).
Proof.
  assert (H : authenticated server_ok session_open session_probed)
    by reflexivity.
  split; [exact H|].
  exact (proj1 (move_emails_sets_flag server_ok "5,6" "Archive"
                  session_open session_probed 0%nat H eq_refl)).
Defined.

(** An instance of the theorem on C7. *)
Lemma connect_idempotent_witness :
  authenticated server_ok session_open session_probed /\
  connect server_ok "user" "secret" session_open = (Ok tt, session_probed) /\
  self session_probed = self session_open.
Proof.
  assert (H : authenticated server_ok session_open session_probed)
    by reflexivity.
  pose proof (connect_idempotent server_ok "user" "secret" session_open
                session_probed H) as T.
  split; [exact H|]. split; [exact (proj1 T)|exact (proj1 (proj2 T))].
Defined.

(** An instance of the theorem on C8. *)
Lemma disconnect_idempotent_witness :
  not_authenticated server_closing session_new session_new /\
  closes_on_logout server_closing /\
  (exists st', authenticated server_closing session_open st') /\
  disconnect server_closing session_new = (Ok tt, session_new) /\
  fst (disconnect server_closing
         (snd (disconnect server_closing session_open))) = Ok tt.
Proof.
  assert (N : not_authenticated server_closing session_new session_new)
    by reflexivity.
  assert (A : exists st', authenticated server_closing session_open st')
    by (exists session_probed; reflexivity).
  pose proof (disconnect_idempotent server_closing) as [T1 T2].
  split; [exact N|]. split; [exact server_closing_closes|].
  split; [exact A|]. split.
  - exact (proj1 (T1 session_new session_new N)).
  - exact (T2 server_closing_closes session_open (or_intror A)).
Defined.

(** C9, the claim as stated fails: [disconnect] went through and the
    session still holds the connection object. *)
Lemma handle_kept_after_disconnect :
  authenticated server_closing session_open session_probed /\
  fst (disconnect server_closing session_open) = Ok tt /\
  imap (self (snd (disconnect server_closing session_open))) = Some 0%nat /\
  imap (self (snd (disconnect server_closing session_open))) <> None.
Proof.
  repeat split; try reflexivity. vm_compute. discriminate.
Qed.

(** An instance of the theorem on C9. *)
Lemma disconnect_sends_logout_witness :
  authenticated server_closing session_open session_probed /\
  closes_on_logout server_closing /\
  fst (disconnect server_closing session_open) = Ok tt /\
  log (snd (disconnect server_closing session_open))
    = (log session_open ++ [Method 0%nat NOOP; Method 0%nat LOGOUT])%list /\
  fst (is_logged server_closing
         (snd (disconnect server_closing session_open))) = Ok false.
Proof.
  assert (H : authenticated server_closing session_open session_probed)
    by reflexivity.
  pose proof (disconnect_sends_logout server_closing session_open
                session_probed 0%nat H eq_refl) as T.
  split; [exact H|]. split; [exact server_closing_closes|]. split.
  - exact (proj1 T "OK" [] eq_refl).
  - split.
    + exact (proj1 (proj2 T)).
    + exact (f_equal fst
               (proj2 (proj2 (proj2 (proj2 T))) server_closing_closes)).
Defined.

(** An instance of the theorem on C10. *)
Lemma move_to_Deleted_is_delete_witness :
  not_authenticated server_stale session_open session_probed /\
  authenticated server_ok session_open session_probed /\
  move_emails server_stale "5,6" "Deleted" session_open
    = (refused, session_probed) /\
  move_emails server_ok "5,6" "Deleted" session_open
    = (Ok tt,
       after session_probed
         [Method 0%nat (STORE "5,6" "+FLAGS" "\Deleted");
          Method 0%nat EXPUNGE]).
Proof.
  assert (N : not_authenticated server_stale session_open session_probed)
    by reflexivity.
  assert (H : authenticated server_ok session_open session_probed)
    by reflexivity.
  split; [exact N|]. split; [exact H|]. split.
  - exact (proj2 (proj1 (proj2 (move_to_Deleted_is_delete server_stale
                                  "5,6" session_open))
                    session_probed N)).
  - exact (proj2 (proj2 (proj2 (move_to_Deleted_is_delete server_ok
                                  "5,6" session_open))
                    session_probed 0%nat H eq_refl)).
Defined.

(** * The further properties on the example servers *)

(** An instance of X1: [disconnect] on an open session. *)
Lemma methods_confined_witness :
  exists sent,
    log (snd (disconnect server_closing session_open))
    = (log session_open ++ sent)%list /\
    Forall (admitted (Some 0%nat) (fun c => c = NOOP \/ c = LOGOUT)) sent.
Proof.
  exact (proj2 (proj1 (proj2 (methods_confined server_closing))
                  session_open _ _ (surjective_pairing _))).
Defined.

(** An instance of X2. *)
Lemma get_emails_reads_only_witness :
  exists sent,
    snd (get_emails server_failing_logout "imap.example.org" "user"
           "secret" (Some "INBOX") "ALL" 3 [])
    = ([] ++ IMAP4_SSL "imap.example.org" 993 None None :: sent)%list /\
    Forall (admitted (Some 0%nat) reading_command) sent.
Proof.
  exact (get_emails_reads_only server_failing_logout "imap.example.org"
           "user" "secret" (Some "INBOX") "ALL" 3 [] _ _
           (surjective_pairing _)).
Defined.

(** An instance of X3. *)
Lemma get_mailboxes_lists_only_witness :
  exists sent,
    snd (get_mailboxes server_two_mailboxes "imap.example.org" "user"
           "secret" (quoted "") "*" [])
    = ([] ++ IMAP4_SSL "imap.example.org" 993 None None :: sent)%list /\
    Forall (admitted (Some 0%nat) listing_command) sent.
Proof.
  exact (get_mailboxes_lists_only server_two_mailboxes "imap.example.org"
           "user" "secret" (quoted "") "*" [] _ _ (surjective_pairing _)).
Defined.

(** An instance of X4: a FETCH on a connection that drops. *)
Lemma operations_raise_only_witness :
  let e := Exc RuntimeError
             "Error fetching email UIDs 1: socket error: EOF" in
  let st' := after session_probed [Method 0%nat (FETCH "1" "(RFC822)")] in
  fetch_emails server_dropping "1" session_open = (Raise e, st') /\
  (e = Exc ConnectionError "Not connected to IMAP server" \/
   exc_type e = RuntimeError \/
   exists h, imap (self session_open) = Some h /\
             server_dropping (log session_open) (Method h NOOP) = Raises e /\
             issubclass (exc_type e) IMAP4_error = false).
Proof.
  intros e st'.
  assert (H : fetch_emails server_dropping "1" session_open = (Raise e, st'))
    by reflexivity.
  split; [exact H|].
  exact (proj1 (proj2 (proj2 (operations_raise_only server_dropping
                                 session_open st' e))) "1" H).
Defined.

(** An instance of X5: the probe times out. *)
Lemma probe_exception_escapes_witness :
  server_timing_out (log session_open) (Method 0%nat NOOP)
    = Raises (Exc TimeoutError "timed out") /\
  issubclass TimeoutError IMAP4_error = false /\
  fetch_emails server_timing_out "1" session_open
    = (Raise (Exc TimeoutError "timed out"), session_probed).
Proof.
  split; [reflexivity|]. split; [reflexivity|].
  exact (proj1 (proj2 (proj2 (proj2 (proj2 (proj2
           (probe_exception_escapes server_timing_out session_open 0%nat
              (Exc TimeoutError "timed out") eq_refl eq_refl eq_refl))))))
           "1").
Defined.

(** An instance of X6: selecting a mailbox the server refuses. *)
Lemma mailbox_calls_ignore_status_witness :
  authenticated server_all_no session_open session_probed /\
  server_all_no (log session_probed) (Method 0%nat (SELECT (Some "Nowhere")))
    = Returns "NO" [DBytes (b "refused")] /\
  select_mailbox server_all_no (Some "Nowhere") session_open
    = (Ok tt, after session_probed [Method 0%nat (SELECT (Some "Nowhere"))]).
Proof.
  assert (H : authenticated server_all_no session_open session_probed)
    by reflexivity.
  split; [exact H|]. split; [reflexivity|].
  exact (proj1 (mailbox_calls_ignore_status server_all_no session_open
                  session_probed 0%nat "NO" [DBytes (b "refused")]
                  H eq_refl) (Some "Nowhere") eq_refl).
Defined.

(** An instance of X7. *)
Lemma delete_emails_two_steps_witness :
  authenticated server_ok session_open session_probed /\
  delete_emails server_ok "5,6" session_open
    = (Ok tt,
       after session_probed
         [Method 0%nat (STORE "5,6" "+FLAGS" "\Deleted");
          Method 0%nat EXPUNGE]).
Proof.
  assert (H : authenticated server_ok session_open session_probed)
    by reflexivity.
  split; [exact H|].
  exact (delete_emails_two_steps server_ok "5,6" session_open
           session_probed 0%nat H eq_refl).
Defined.

(** An instance of X8: the first [connect] of a session. *)
Lemma connect_builds_connection_witness :
  not_authenticated server_ok session_new session_new /\
  connect server_ok "user" "secret" session_new = (Ok tt, session_open).
Proof.
  assert (N : not_authenticated server_ok session_new session_new)
    by reflexivity.
  split; [exact N|].
  exact (connect_builds_connection server_ok "user" "secret" session_new
           session_new "OK" [] N eq_refl).
Defined.

(** An instance of X9: a wrong password, then the right one. *)
Lemma failed_login_passes_probe_witness :
  not_authenticated server_rejecting_login session_new session_new /\
  (exists e', fst (connect server_rejecting_login "user" "wrong" session_new)
              = Raise e') /\
  (forall account' password',
     fst (connect server_rejecting_login account' password'
            (snd (connect server_rejecting_login "user" "wrong"
                    session_new)))
     = Ok tt).
Proof.
  assert (N : not_authenticated server_rejecting_login session_new
                session_new) by reflexivity.
  pose proof (failed_login_passes_probe server_rejecting_login "user"
                "wrong" session_new session_new "OK" "OK" [] []
                (Exc IMAP4_error
                   "b'[AUTHENTICATIONFAILED] Invalid credentials'")
                N eq_refl eq_refl eq_refl) as T.
  split; [exact N|]. split; [exact (proj1 T)|].
  intros account' password'.
  exact (f_equal fst (proj2 (proj2 (proj2 T)) account' password')).
Defined.

(** An instance of X10: a block that went well, and a LOGOUT that
    fails. *)
Lemma with_client_outcome_witness :
  select_mailbox server_failing_logout (Some "INBOX") session_open
    = (Ok tt, after session_probed [Method 0%nat (SELECT (Some "INBOX"))]) /\
  fst (with_client server_failing_logout
         (select_mailbox server_failing_logout (Some "INBOX")) session_open)
    = Raise (Exc RuntimeError
               "Error closing connection: socket error: EOF").
Proof.
  assert (B : select_mailbox server_failing_logout (Some "INBOX")
                session_open
              = (Ok tt,
                 after session_probed
                   [Method 0%nat (SELECT (Some "INBOX"))]))
    by reflexivity.
  split; [exact B|].
  exact (f_equal fst
           (proj2 (with_client_outcome server_failing_logout _ _ _ _ B)
              _ 0%nat eq_refl eq_refl)).
Defined.

(** An instance of X11: batch sizes zero and minus one. *)
Lemma fetch_batches_nothing_to_do_witness :
  fetch_batches server_ok seven_ids 0 session_open
    = (Raise (Exc ValueError "range() arg 3 must not be zero"),
       session_open) /\
  fetch_batches server_ok seven_ids (-1) session_open
    = (Ok [], session_open).
Proof.
  split.
  - exact (proj1 (fetch_batches_nothing_to_do server_ok seven_ids 0
                    session_open) eq_refl).
  - exact (proj2 (fetch_batches_nothing_to_do server_ok seven_ids (-1)
                    session_open) (or_introl eq_refl)).
Defined.

(** An instance of X12. *)
Lemma windows_single_witness :
  seven_ids <> [] /\ len seven_ids <= 10 /\
  windows seven_ids 10 = [seven_ids].
Proof.
  assert (Hne : seven_ids <> []) by discriminate.
  assert (Hle : len seven_ids <= 10) by (intros E; discriminate E).
  split; [exact Hne|]. split; [exact Hle|].
  exact (windows_single seven_ids 10 Hne Hle).
Defined.

(** An instance of X13: a search that finds seven messages. *)
Lemma search_emails_ok_reply_witness :
  authenticated server_failing_logout session_open session_probed /\
  search_emails server_failing_logout "ALL" session_open
    = (Ok seven_ids,
       after session_probed [Method 0%nat (SEARCH None "ALL")]).
Proof.
  assert (H : authenticated server_failing_logout session_open
                session_probed) by reflexivity.
  split; [exact H|].
  exact (proj1 (proj1 (search_emails_ok_reply server_failing_logout "ALL"
                         session_open session_probed 0%nat
                         [DBytes (b "1 2 3 4 5 6 7")] H eq_refl eq_refl)
                  (b "1 2 3 4 5 6 7") [] eq_refl)).
Defined.

(** An instance of X14: two messages, as the library hands them over. *)
Lemma fetch_emails_ok_reply_witness :
  authenticated server_faithful session_open session_probed /\
  fetch_emails server_faithful "1,2" session_open
    = (Ok [message_from_bytes (b "msg1"); message_from_bytes (b "msg2")],
       after session_probed [Method 0%nat (FETCH "1,2" "(RFC822)")]).
Proof.
  assert (H : authenticated server_faithful session_open session_probed)
    by reflexivity.
  split; [exact H|].
  exact (proj1 (fetch_emails_ok_reply server_faithful "1,2" session_open
                  session_probed 0%nat (fetch_data "1,2") H eq_refl eq_refl)
           [(b "1 (RFC822 {4}", b "msg1"); (b "2 (RFC822 {4}", b "msg2")]
           eq_refl).
Defined.

(** An instance of X15: the two mailboxes of the example server. *)
Lemma list_mailboxes_names_witness :
  authenticated server_two_mailboxes session_open session_probed /\
  list_mailboxes server_two_mailboxes (b "") (b "*") session_open
    = (Ok [quoted "INBOX"; quoted "Sent"],
       after session_probed [Method 0%nat (LIST (b "") (b "*"))]).
Proof.
  assert (H : authenticated server_two_mailboxes session_open
                session_probed) by reflexivity.
  split; [exact H|].
  refine (list_mailboxes_names server_two_mailboxes (b "") (b "*")
            session_open session_probed 0%nat
            [("(\HasNoChildren)", quoted "INBOX");
             ("(\HasNoChildren)", quoted "Sent")]
            H eq_refl eq_refl _).
  repeat constructor.
Defined.

(** An instance of X16: a server with a dot for delimiter. *)
Lemma list_mailboxes_other_delimiter_witness :
  authenticated server_dot_delimiter session_open session_probed /\
  exists m,
    list_mailboxes server_dot_delimiter (b "") (b "*") session_open
    = (Raise (Exc RuntimeError ("Error retrieving mailboxes: " ++ m)),
       after session_probed [Method 0%nat (LIST (b "") (b "*"))]).
Proof.
  assert (H : authenticated server_dot_delimiter session_open
                session_probed) by reflexivity.
  split; [exact H|].
  exact (list_mailboxes_other_delimiter server_dot_delimiter (b "") (b "*")
           session_open session_probed 0%nat _
           (b ("(\HasNoChildren) " ++ quoted "." ++ " INBOX"))
           H eq_refl eq_refl (or_introl eq_refl) eq_refl eq_refl).
Defined.

(** An instance of X17. *)
Lemma uids_str_reads_back_witness :
  exists uids_str,
    uids_str_of [b "1"; b "2"; b "3"] = Ok uids_str /\
    str_split uids_str "," = ["1"; "2"; "3"].
Proof.
  refine (proj1 (uids_str_reads_back [b "1"; b "2"; b "3"]) _ _).
  - discriminate.
  - repeat constructor.
Defined.

(** An instance of X18: a greeting the library rejects. *)
Lemma connect_constructor_raises_witness :
  not_authenticated server_bad_greeting session_new session_new /\
  connect server_bad_greeting "user" "secret" session_new
    = (Raise (Exc ConnectionError
                "Failed to connect to IMAP server: b'* BYE not available'"),
       after session_new [IMAP4_SSL "imap.example.org" 993 None None]).
Proof.
  assert (N : not_authenticated server_bad_greeting session_new session_new)
    by reflexivity.
  split; [exact N|].
  exact (connect_constructor_raises server_bad_greeting "user" "secret"
           session_new session_new
           (Exc IMAP4_error "b'* BYE not available'") N eq_refl).
Defined.
